(** * Secure training and evaluation on MNIST: the orchestration loops

    A shallow embedding of the two tutorial notebooks: the secret-sharing
    notebook (hyper-parameters, private data loaders, [Net], [train],
    [test], the epoch loop) and the epoch loop of the federated-averaging
    notebook.  A shared tensor is modelled by the value its shares denote,
    a rational on the grid of its fixed precision; what the library keeps
    secret is made visible only by [get_float_precision], which leaves an
    event in the trace of the run.  A call of the tensor library that
    rejects the shapes it is given raises [RuntimeError]. *)

From Stdlib Require Import ZArith QArith Qcanon List Bool Lia.
From Stdlib Require String DecimalString DecimalNat.
Import ListNotations.

Open Scope Qc_scope.

(** ** Tensors *)

Module Tensor.

Definition Vector := list Qc.
Definition Matrix := list Vector.

(** What a [.get()] can hand back: a tensor of rank 0, 1 or 2. *)
Inductive t :=
| Scalar (x : Qc)
| Vec (v : Vector)
| Mat (m : Matrix).

Definition rank (x : t) : nat :=
  match x with Scalar _ => 0 | Vec _ => 1 | Mat _ => 2 end.

Definition of_nat (n : nat) : Qc := Q2Qc (inject_Z (Z.of_nat n)).
Definition of_Z (z : Z) : Qc := Q2Qc (inject_Z z).

Fixpoint zip_with {A B C} (f : A -> B -> C) (l1 : list A) (l2 : list B) : list C :=
  match l1, l2 with
  | a :: l1', b :: l2' => f a b :: zip_with f l1' l2'
  | _, _ => []
  end.

(** Element-wise sums and differences of tensors of the same shape (the
    parameters and their gradients). *)
Definition vadd : Vector -> Vector -> Vector := zip_with Qcplus.
Definition vsub : Vector -> Vector -> Vector := zip_with Qcminus.
Definition vzeros_like : Vector -> Vector := map (fun _ => 0).

Definition madd : Matrix -> Matrix -> Matrix := zip_with vadd.
Definition msub : Matrix -> Matrix -> Matrix := zip_with vsub.
Definition mzeros_like : Matrix -> Matrix := map vzeros_like.

(** [tensor.sum()]: the sum of all the elements. *)
Definition vsum (v : Vector) : Qc := fold_right Qcplus 0 v.
Definition msum (m : Matrix) : Qc := vsum (concat m).

(** [tensor.shape[0]] *)
Definition shape0 (m : Matrix) : nat := length m.

(** Every row has [cols] elements. *)
Definition rows_of_width (cols : nat) (m : Matrix) : bool :=
  forallb (fun row => (length row =? cols)%nat) m.

(** A function that fails on one element fails on the list. *)
Fixpoint map_opt {A B} (f : A -> option B) (l : list A) : option (list B) :=
  match l with
  | [] => Some []
  | x :: l' =>
      match f x, map_opt f l' with
      | Some y, Some ys => Some (y :: ys)
      | _, _ => None
      end
  end.

Definition and_then {A B} (m : option A) (k : A -> option B) : option B :=
  match m with
  | Some x => k x
  | None => None
  end.

(** The broadcasting of an element-wise operation along one dimension: the
    sizes agree, or one of them is 1 and its only element is used against
    every element of the other; anything else is refused. *)
Definition broadcast {A B} (f : A -> A -> option B) (d : A) (u v : list A) : option (list B) :=
  if (length u =? length v)%nat then map_opt (fun xy => f (fst xy) (snd xy)) (combine u v)
  else if (length u =? 1)%nat then map_opt (f (hd d u)) v
  else if (length v =? 1)%nat then map_opt (fun x => f x (hd d v)) u
  else None.

(** [a - b] on tensors of rank 1 and of rank 2. *)
Definition vsub_broadcast : Vector -> Vector -> option Vector :=
  broadcast (fun x y => Some (x - y)) 0.

Definition msub_broadcast : Matrix -> Matrix -> option Matrix :=
  broadcast vsub_broadcast [].

Definition Qcleb (x y : Qc) : bool :=
  match x ?= y with Gt => false | _ => true end.

Definition relu_scalar (x : Qc) : Qc := if Qcleb 0 x then x else 0.
Definition relu : Matrix -> Matrix := map (map relu_scalar).

(** [row.argmax()]: the position of the first greatest element. *)
Fixpoint argmax_from (best : Qc) (best_idx idx : nat) (v : Vector) : nat :=
  match v with
  | [] => best_idx
  | x :: v' =>
      if Qcleb x best then argmax_from best best_idx (S idx) v'
      else argmax_from x idx (S idx) v'
  end.

Definition argmax_row (v : Vector) : nat :=
  match v with
  | [] => 0%nat
  | x :: v' => argmax_from x 0 1 v'
  end.

(** The positions of the greatest element of every row. *)
Definition argmax_dim1 (m : Matrix) : list nat := map argmax_row m.

(** [output.argmax(dim=1)]: a row without elements has no greatest
    element, and the call is refused. *)
Definition argmax (output : Matrix) : option (list nat) :=
  if forallb (fun row => negb (length row =? 0)%nat) output
  then Some (argmax_dim1 output)
  else None.

(** [pred.eq(target.view_as(pred)).sum()]: how many predictions equal their
    target; [view_as] refuses a target that has not one element per
    prediction. *)
Definition eq_sum (pred : list nat) (target : Vector) : option Qc :=
  if (length target =? length pred)%nat
  then Some (vsum (zip_with (fun p y => if Qc_eq_bool (of_nat p) y then 1 else 0) pred target))
  else None.

End Tensor.

Import Tensor.

(** ** Fixed precision *)

(** [x.fix_precision(precision_fractional=p)] keeps [p] decimal digits of
    [x]: the tensor holds the integer [(x * 10 ** p).long()], the product
    cut towards zero, and [float_precision] reads it back as that integer
    over [10 ** p]. *)
Definition fix_precision (precision_fractional : nat) (x : Qc) : Qc :=
  let base := (10 ^ Z.of_nat precision_fractional)%Z in
  Q2Qc (Qred (Z.quot (Qnum x * base) (Z.pos (Qden x)) # Z.to_pos base)).

(** [fix_precision()] without argument keeps three digits. *)
Definition default_precision : nat := 3.

(** The arithmetic of the library on shared fixed-precision values.  Sums
    and differences are exact, comparisons too.  A product, an entry of a
    matrix product and a quotient by a public integer lose digits after the
    operation, share by share, in a way that is the library's: [share_mul x
    y] stands for [x * y], [share_dot u v] for the entry of [u @ v] and
    [share_div x n] for [x / n], as the library computes them. *)
Class SharedArithmetic := {
  share_mul : Qc -> Qc -> Qc;
  share_dot : Vector -> Vector -> Qc;
  share_div : Qc -> nat -> Qc
}.

(** ** Hyper-parameters *)

Record Arguments := {
  batch_size : Z;
  test_batch_size : Z;
  epochs : Z;
  lr : Qc;
  seed : Z;
  log_interval : Z;
  precision_fractional : nat
}.

Definition args : Arguments := {|
  batch_size := 64;
  test_batch_size := 64;
  epochs := 10;
  lr := Q2Qc (2 # 100);
  seed := 1;
  log_interval := 1;
  precision_fractional := 3
|}.

Definition n_train_items : Z := 640.
Definition n_test_items : Z := 640.

(** ** Private data loaders *)

(** One item of the data set: the pixels of the image after the
    transformation, and its label. *)
Definition Example := (Vector * nat)%type.

(** A batch as the loops see it: the data and the target tensor.  A row of
    the data holds the pixels of one image.  A training target is one-hot
    (one row per example), a test target holds the labels. *)
Definition Batch := (Matrix * Matrix)%type.
Definition TestBatch := (Matrix * Vector)%type.

Definition Loader := list Batch.
Definition TestLoader := list TestBatch.

Module DataLoader.

(** [torch.utils.data.DataLoader(dataset, batch_size=n)] with its
    defaults (no shuffling, last batch kept when it is short): the items
    in order, [n] at a time.  [fuel] bounds the number of batches. *)
Fixpoint batches_aux {A} (fuel n : nat) (items : list A) : list (list A) :=
  match fuel with
  | O => []
  | S fuel' =>
      match items with
      | [] => []
      | _ => firstn n items :: batches_aux fuel' n (skipn n items)
      end
  end.

(** A batch size that is not positive is refused by the loader. *)
Definition batches {A} (n : Z) (items : list A) : option (list (list A)) :=
  if (0 <? n)%Z then Some (batches_aux (length items) (Z.to_nat n) items) else None.

(** [enumerate] *)
Fixpoint enumerate_from {A} (i : nat) (l : list A) : list (nat * A) :=
  match l with
  | [] => []
  | a :: l' => (i, a) :: enumerate_from (S i) l'
  end.

Definition enumerate {A} (l : list A) : list (nat * A) := enumerate_from 0 l.

End DataLoader.

(** [i < n_items / batch]: the division is Python's true division. *)
Definition index_lt_ratio (i : nat) (n_items batch : Z) : bool :=
  match of_nat i ?= of_Z n_items / of_Z batch with Lt => true | _ => false end.

(** [one_hot_of]: a label becomes a row of ten entries; [scatter] rejects a
    label outside of them. *)
Definition one_hot_row (label : nat) : option Vector :=
  if (label <? 10)%nat
  then Some (map (fun j => if (j =? label)%nat then 1 else 0) (seq 0 10))
  else None.

Fixpoint one_hot_of (index_tensor : list nat) : option Matrix :=
  match index_tensor with
  | [] => Some []
  | label :: rest =>
      match one_hot_row label, one_hot_of rest with
      | Some r, Some m => Some (r :: m)
      | _, _ => None
      end
  end.

(** [secret_share]: fixed precision, then additive shares; the value the
    shares denote is the tensor in fixed precision.  The images and the
    one-hot targets have rank 2, the labels of the test loader rank 1. *)
Definition secret_share (precision_fractional : nat) (tensor : Matrix) : Matrix :=
  map (map (fix_precision precision_fractional)) tensor.

Definition secret_share_labels (precision_fractional : nat) (tensor : Vector) : Vector :=
  map (fix_precision precision_fractional) tensor.

(** [target.float()] *)
Definition float_labels (target : list nat) : Vector := map of_nat target.

Fixpoint private_train_batches (a : Arguments) (l : list (nat * list Example)) : option Loader :=
  match l with
  | [] => Some []
  | (i, b) :: rest =>
      if index_lt_ratio i n_train_items (batch_size a) then
        match one_hot_of (map snd b), private_train_batches a rest with
        | Some target, Some tl =>
            Some ((secret_share (precision_fractional a) (map fst b),
                   secret_share (precision_fractional a) target) :: tl)
        | _, _ => None
        end
      else private_train_batches a rest
  end.

Definition private_test_batches (a : Arguments) (l : list (nat * list Example)) : TestLoader :=
  map (fun ib => (secret_share (precision_fractional a) (map fst (snd ib)),
                  secret_share_labels (precision_fractional a) (float_labels (map snd (snd ib)))))
      (filter (fun ib => index_lt_ratio (fst ib) n_test_items (test_batch_size a)) l).

(** [get_private_data_loaders].  [mnist train] stands for
    [datasets.MNIST('../data', train=train, ...)] with the transformation
    applied; the hyper-parameters are read from the global [args]. *)
Definition get_private_data_loaders (a : Arguments) (mnist : bool -> list Example)
  : option (Loader * TestLoader) :=
  match DataLoader.batches (batch_size a) (mnist true) with
  | None => None
  | Some train_loader =>
      match private_train_batches a (DataLoader.enumerate train_loader) with
      | None => None
      | Some private_train_loader =>
          match DataLoader.batches (test_batch_size a) (mnist true) with
          | None => None
          | Some test_loader =>
              Some (private_train_loader,
                    private_test_batches a (DataLoader.enumerate test_loader))
          end
      end
  end.

(** ** Model specification *)

Record Linear := { weight : Matrix; bias : Vector }.

Definition out_features (l : Linear) : nat := length (weight l).

(** [x @ W^T] for one row [x]: every row of [W] must have as many entries
    as [x]. *)
Definition matmul_row `{SA : SharedArithmetic} (w : Matrix) (row : Vector) : option Vector :=
  if rows_of_width (length row) w then Some (map (share_dot row) w) else None.

(** [y + b] for one row [y]: [b] has one entry per entry of [y], or one
    entry in all. *)
Definition add_bias (b : Vector) (y : Vector) : option Vector :=
  if (length b =? length y)%nat then Some (vadd y b)
  else if (length b =? 1)%nat then Some (map (fun v => v + hd 0 b) y)
  else None.

(** [nn.Linear]: every row [x] becomes [x W^T + b]. *)
Definition linear `{SA : SharedArithmetic} (l : Linear) (x : Matrix) : option Matrix :=
  map_opt (fun row => and_then (matmul_row (weight l) row) (add_bias (bias l))) x.

Record Net := { fc1 : Linear; fc2 : Linear; fc3 : Linear }.

(** [x.view(-1, cols)]: the elements in order, [cols] to a row; refused
    when they do not fill the rows, and when there is none. *)
Definition view (cols : nat) (x : Matrix) : option Matrix :=
  let elements := concat x in
  let n := length elements in
  if (cols =? 0)%nat || (n =? 0)%nat || negb (n mod cols =? 0)%nat then None
  else Some (DataLoader.batches_aux n cols elements).

Definition forward `{SA : SharedArithmetic} (n : Net) (x : Matrix) : option Matrix :=
  and_then (view (28 * 28) x) (fun x =>
  and_then (linear (fc1 n) x) (fun x =>
  let x := relu x in
  and_then (linear (fc2 n) x) (fun x =>
  let x := relu x in
  linear (fc3 n) x))).

(** Arithmetic on the parameters of a net, tensor by tensor. *)
Module Params.

Definition lin_map2 (fm : Matrix -> Matrix -> Matrix) (fv : Vector -> Vector -> Vector)
           (a b : Linear) : Linear :=
  {| weight := fm (weight a) (weight b); bias := fv (bias a) (bias b) |}.

Definition lin_map (fm : Matrix -> Matrix) (fv : Vector -> Vector) (a : Linear) : Linear :=
  {| weight := fm (weight a); bias := fv (bias a) |}.

Definition map2 (f : Linear -> Linear -> Linear) (a b : Net) : Net :=
  {| fc1 := f (fc1 a) (fc1 b); fc2 := f (fc2 a) (fc2 b); fc3 := f (fc3 a) (fc3 b) |}.

Definition map1 (f : Linear -> Linear) (a : Net) : Net :=
  {| fc1 := f (fc1 a); fc2 := f (fc2 a); fc3 := f (fc3 a) |}.

(** The same function on every entry of every parameter. *)
Definition pointwise (f : Qc -> Qc) : Net -> Net :=
  map1 (lin_map (map (map f)) (map f)).

Definition add : Net -> Net -> Net := map2 (lin_map2 madd vadd).
Definition sub : Net -> Net -> Net := map2 (lin_map2 msub vsub).
Definition scale `{SA : SharedArithmetic} (c : Qc) : Net -> Net := pointwise (share_mul c).
Definition zeros_like : Net -> Net := map1 (lin_map mzeros_like vzeros_like).

(** Same shape, tensor by tensor. *)
Definition vshape (u v : Vector) : Prop := length u = length v.
Definition mshape (a b : Matrix) : Prop := Forall2 vshape a b.
Definition lshape (a b : Linear) : Prop :=
  mshape (weight a) (weight b) /\ vshape (bias a) (bias b).
Definition same_shape (a b : Net) : Prop :=
  lshape (fc1 a) (fc1 b) /\ lshape (fc2 a) (fc2 b) /\ lshape (fc3 a) (fc3 b).

End Params.

(** [model.fix_precision().share(...)]: every parameter in fixed precision
    with the default number of digits. *)
Definition share_model (model : Net) : Net :=
  Params.pointwise (fix_precision default_precision) model.

(** The gradient rules live in the library: [autograd n data target] is
    what [loss.backward()] adds to the [.grad] of every parameter of [n]
    for the loss of [train] on the batch [(data, target)]; a gradient has
    the shape of its parameter. *)
Class Autograd := {
  autograd : Net -> Matrix -> Matrix -> Net;
  autograd_shape : forall n data target, Params.same_shape (autograd n data target) n
}.

(** ** The run: state, exceptions and trace *)

Inductive Exn := ZeroDivisionError | AttributeError | ValueError | RuntimeError.

(** The two places where the notebook writes [.get().float_precision()]. *)
Inductive Site :=
| TrainLog (batch_idx : nat)
| TestCorrect.

Inductive Fn :=
| FnTrain (epoch : Z)
| FnTest.

(** A line of output: the epoch, the items seen, the items in all, the
    loss (the elapsed time is left out) or the count and the total. *)
Inductive Line :=
| TrainLine (epoch : Z) (seen total : Z) (loss : Qc)
| TestLine (correct : Qc) (total : Z).

Inductive Event :=
| EvEnter (f : Fn)
| EvSetMode (training : bool)
| EvYield (batch_idx : nat)
| EvZeroGrad
| EvForward (tracking : bool)
| EvBackward
| EvStep
| EvReveal (site : Site) (value : Tensor.t)
| EvPrint (line : Line).

(** The objects the loops share by reference: the parameters (the model
    and the optimizer hold the same tensors), their gradient buffers
    ([None] before the first backward pass), the mode of the module and the
    gradient switch of [torch]. *)
Record World := {
  params : Net;
  grads : option Net;
  training : bool;
  grad_enabled : bool;
  trace : list Event
}.

Definition Py (A : Type) : Type := World -> (A + Exn) * World.

Definition ret {A} (a : A) : Py A := fun w => (inl a, w).

Definition raise {A} (e : Exn) : Py A := fun w => (inr e, w).

Definition bind {A B} (m : Py A) (k : A -> Py B) : Py B :=
  fun w =>
    match m w with
    | (inl a, w') => k a w'
    | (inr e, w') => (inr e, w')
    end.

Declare Scope py_scope.
Delimit Scope py_scope with py.
Notation "x <- m ;; k" := (bind m (fun x => k))
  (at level 100, m at next level, right associativity) : py_scope.
Notation "m ;; k" := (bind m (fun _ => k))
  (at level 100, right associativity) : py_scope.
Open Scope py_scope.

Definition emit (e : Event) : Py unit :=
  fun w => (inl tt, {| params := params w; grads := grads w; training := training w;
                       grad_enabled := grad_enabled w; trace := trace w ++ [e] |}).

Definition set_params (p : Net) : Py unit :=
  fun w => (inl tt, {| params := p; grads := grads w; training := training w;
                       grad_enabled := grad_enabled w; trace := trace w |}).

Definition set_grads (g : option Net) : Py unit :=
  fun w => (inl tt, {| params := params w; grads := g; training := training w;
                       grad_enabled := grad_enabled w; trace := trace w |}).

Definition set_training (b : bool) : Py unit :=
  fun w => (inl tt, {| params := params w; grads := grads w; training := b;
                       grad_enabled := grad_enabled w; trace := trace w |}).

Definition set_grad_enabled (b : bool) : Py unit :=
  fun w => (inl tt, {| params := params w; grads := grads w; training := training w;
                       grad_enabled := b; trace := trace w |}).

Definition read {A} (f : World -> A) : Py A := fun w => (inl (f w), w).

(** A call of the tensor library that refuses its arguments. *)
Definition checked {A} (result : option A) : Py A :=
  match result with
  | Some x => ret x
  | None => raise RuntimeError
  end.

(** [for x in l: body x] *)
Fixpoint for_each {A} (l : list A) (body : A -> Py unit) : Py unit :=
  match l with
  | [] => ret tt
  | x :: l' => body x ;; for_each l' body
  end.

(** [with torch.no_grad(): body]: the switch is put back on the way out,
    also when [body] raises. *)
Definition with_no_grad {A} (body : Py A) : Py A :=
  fun w =>
    let prev := grad_enabled w in
    let '(r, w') := (set_grad_enabled false ;; body) w in
    (r, snd (set_grad_enabled prev w')).

(** [a % b] on integers. *)
Definition py_mod (a b : Z) : Py Z :=
  if (b =? 0)%Z then raise ZeroDivisionError else ret (a mod b)%Z.

(** [range(lo, hi)] *)
Definition py_range (lo hi : Z) : list Z :=
  map (fun i => (lo + Z.of_nat i)%Z) (seq 0 (Z.to_nat (hi - lo))).

(** ** Library calls of the loops *)

(** [optim.SGD(model.parameters(), lr=lr)]: no momentum, no decay. *)
Record Optimizer := { opt_lr : Qc }.

Definition SGD (lr : Qc) : Optimizer := {| opt_lr := lr |}.

(** [optimizer.fix_precision()]: the learning rate in fixed precision. *)
Definition optimizer_fix_precision (optimizer : Optimizer) : Optimizer :=
  {| opt_lr := fix_precision default_precision (opt_lr optimizer) |}.

(** [model.train()] and [model.eval()] *)
Definition model_train : Py unit := emit (EvSetMode true) ;; set_training true.
Definition model_eval : Py unit := emit (EvSetMode false) ;; set_training false.

(** [optimizer.zero_grad()]: every gradient buffer that exists is zeroed in
    place. *)
Definition optimizer_zero_grad : Py unit :=
  emit EvZeroGrad ;;
  g <- read grads ;;
  match g with
  | None => ret tt
  | Some g => set_grads (Some (Params.zeros_like g))
  end.

(** [model(data)] *)
Definition model_call `{SA : SharedArithmetic} (data : Matrix) : Py Matrix :=
  tracking <- read grad_enabled ;;
  emit (EvForward tracking) ;;
  p <- read params ;;
  checked (forward p data).

(** [.refresh()] draws new shares of the same value. *)
Definition refresh (x : Qc) : Qc := x.

(** [((output - target)**2).sum().refresh()/batch_size] with [batch_size =
    output.shape[0]]; the square is the product of the tensor with
    itself.  An output without rows has no loss. *)
Definition loss_of `{SA : SharedArithmetic} (output target : Matrix) : option Qc :=
  let batch_size := shape0 output in
  and_then (msub_broadcast output target) (fun difference =>
  let squares := map (map (fun d => share_mul d d)) difference in
  if (batch_size =? 0)%nat then None
  else Some (share_div (refresh (msum squares)) batch_size)).

(** [loss.backward()]: the gradient of the loss is added to the buffers. *)
Definition loss_backward `{AG : Autograd} (data target : Matrix) : Py unit :=
  emit EvBackward ;;
  p <- read params ;;
  g <- read grads ;;
  let d := autograd p data target in
  set_grads (Some (match g with None => d | Some g => Params.add g d end)).

(** [optimizer.step()]: [p <- p - lr * p.grad] for every parameter that has
    a gradient. *)
Definition optimizer_step `{SA : SharedArithmetic} (optimizer : Optimizer) : Py unit :=
  emit EvStep ;;
  p <- read params ;;
  g <- read grads ;;
  match g with
  | None => ret tt
  | Some g => set_params (Params.sub p (Params.scale (opt_lr optimizer) g))
  end.

(** [x.get().float_precision()]: the shares are fetched and decoded; the
    value becomes visible to the caller. *)
Definition get_float_precision (site : Site) (x : Tensor.t) : Py Tensor.t :=
  emit (EvReveal site x) ;; ret x.

(** [x.item()] is for a tensor of one element. *)
Definition item (x : Tensor.t) : Py Qc :=
  match x with
  | Scalar v => ret v
  | Vec [v] => ret v
  | Mat [[v]] => ret v
  | _ => raise ValueError
  end.

Definition print (l : Line) : Py unit := emit (EvPrint l).

(** ** Training and testing functions *)

Definition train_body `{SA : SharedArithmetic} `{AG : Autograd} (a : Arguments) (len : nat)
           (optimizer : Optimizer) (epoch : Z) (ib : nat * Batch) : Py unit :=
  let '(batch_idx, (data, target)) := ib in
  emit (EvYield batch_idx) ;;
  optimizer_zero_grad ;;
  output <- model_call data ;;
  loss <- checked (loss_of output target) ;;
  loss_backward data target ;;
  optimizer_step optimizer ;;
  r <- py_mod (Z.of_nat batch_idx) (log_interval a) ;;
  if (r =? 0)%Z then
    loss <- get_float_precision (TrainLog batch_idx) (Scalar loss) ;;
    l <- item loss ;;
    print (TrainLine epoch (Z.of_nat batch_idx * batch_size a)
                     (Z.of_nat len * batch_size a) l)
  else ret tt.

Definition train `{SA : SharedArithmetic} `{AG : Autograd} (a : Arguments)
           (private_train_loader : Loader) (optimizer : Optimizer) (epoch : Z) : Py unit :=
  emit (EvEnter (FnTrain epoch)) ;;
  model_train ;;
  for_each (DataLoader.enumerate private_train_loader)
           (train_body a (length private_train_loader) optimizer epoch).

(** [correct] starts as the integer [0] and becomes a shared tensor at the
    first [+=]. *)
Inductive Correct :=
| CInt (z : Z)
| CTensor (x : Qc).

Definition correct_iadd (correct : Correct) (x : Qc) : Correct :=
  match correct with
  | CInt z => CTensor (of_Z z + x)
  | CTensor y => CTensor (y + x)
  end.

Fixpoint test_loop `{SA : SharedArithmetic} (l : TestLoader) (correct : Correct) : Py Correct :=
  match l with
  | [] => ret correct
  | (data, target) :: l' =>
      output <- model_call data ;;
      pred <- checked (argmax output) ;;
      n <- checked (eq_sum pred target) ;;
      test_loop l' (correct_iadd correct n)
  end.

Definition test `{SA : SharedArithmetic} (a : Arguments) (private_test_loader : TestLoader)
  : Py unit :=
  emit (EvEnter FnTest) ;;
  model_eval ;;
  correct <- with_no_grad (test_loop private_test_loader (CInt 0)) ;;
  correct <- match correct with
             | CInt _ => raise AttributeError
             | CTensor x => get_float_precision TestCorrect (Scalar x)
             end ;;
  c <- item correct ;;
  let total := (Z.of_nat (length private_test_loader) * test_batch_size a)%Z in
  if (total =? 0)%Z then raise ZeroDivisionError
  else print (TestLine c total).

(** ** The epoch loop *)

Definition epoch_loop `{SA : SharedArithmetic} `{AG : Autograd} (a : Arguments)
           (private_train_loader : Loader) (private_test_loader : TestLoader)
           (optimizer : Optimizer) : Py unit :=
  for_each (py_range 1 (epochs a + 1))
           (fun epoch =>
              train a private_train_loader optimizer epoch ;;
              test a private_test_loader).

(** The state in which the loop starts: a fresh module is in training
    mode, no gradient exists yet. *)
Definition initial_world (model : Net) : World :=
  {| params := model; grads := None; training := true; grad_enabled := true; trace := [] |}.

(** The optimizer of the last cell. *)
Definition notebook_optimizer (a : Arguments) : Optimizer :=
  optimizer_fix_precision (SGD (lr a)).

(** The last cell: the model is put in fixed precision and shared, the
    optimizer built and put in fixed precision, the loop run. *)
Definition main `{SA : SharedArithmetic} `{AG : Autograd} (a : Arguments) (model : Net)
           (private_train_loader : Loader) (private_test_loader : TestLoader)
  : (unit + Exn) * World :=
  let model := share_model model in
  let optimizer := SGD (lr a) in
  let optimizer := optimizer_fix_precision optimizer in
  epoch_loop a private_train_loader private_test_loader optimizer (initial_world model).

(** ** The federated-averaging notebook *)

Module Federated.

(** The arguments the notebook reads. *)
Record Arguments := {
  batch_size : Z;
  test_batch_size : Z;
  epochs : Z;
  federate_after_n_batches : Z;
  lr : Qc;
  seed : Z
}.

Definition args : Arguments := {|
  batch_size := 64;
  test_batch_size := 1000;
  epochs := 2;
  federate_after_n_batches := 50;
  lr := Q2Qc (1 # 100);
  seed := 1
|}.

(** What the epoch loop leaves behind: the line it prints, and what the
    two functions it calls were given and logged. *)
Inductive Output (Model TrainLog TestLog : Type) :=
| OutEpoch (epoch epochs : Z)
| OutTrain (model : Model) (log : TrainLog)
| OutTest (model : Model) (log : TestLog).

Arguments OutEpoch {Model TrainLog TestLog}.
Arguments OutTrain {Model TrainLog TestLog}.
Arguments OutTest {Model TrainLog TestLog}.

Inductive Kind :=
| KEpoch (epoch : Z)
| KTrain
| KTest.

Definition kind_of {Model TrainLog TestLog} (o : Output Model TrainLog TestLog) : Kind :=
  match o with
  | OutEpoch epoch _ => KEpoch epoch
  | OutTrain _ _ => KTrain
  | OutTest _ _ => KTest
  end.

(** The epoch loop of the notebook.  [rwc_train] and [rwc_test] stand for
    [rwc.train] and [rwc.test], functions of [run_websocket_client.py]
    that the notebook imports: each returns or raises.  The loaders
    shuffle: [loader epoch] is what a loader yields when it is consumed in
    that epoch. *)
Fixpoint epoch_loop {Model FedLoader TestLoader TrainLog TestLog Err : Type}
         (rwc_train : Model -> FedLoader -> Qc -> Z -> (Model * TrainLog) + Err)
         (rwc_test : Model -> TestLoader -> TestLog + Err)
         (a : Arguments) (range : list Z) (model : Model)
         (federated_train_loader : Z -> FedLoader) (test_loader : Z -> TestLoader)
  : (Model + Err) * list (Output Model TrainLog TestLog) :=
  match range with
  | [] => (inl model, [])
  | epoch :: rest =>
      let line := OutEpoch epoch (epochs a) in
      match rwc_train model (federated_train_loader epoch) (lr a) (federate_after_n_batches a) with
      | inr e => (inr e, [line])
      | inl (trained, log) =>
          match rwc_test trained (test_loader epoch) with
          | inr e => (inr e, [line; OutTrain model log])
          | inl test_log =>
              let '(r, out) := epoch_loop rwc_train rwc_test a rest trained
                                          federated_train_loader test_loader in
              (r, line :: OutTrain model log :: OutTest trained test_log :: out)
          end
      end
  end.

Definition main {Model FedLoader TestLoader TrainLog TestLog Err : Type}
           (rwc_train : Model -> FedLoader -> Qc -> Z -> (Model * TrainLog) + Err)
           (rwc_test : Model -> TestLoader -> TestLog + Err)
           (a : Arguments) (model : Model)
           (federated_train_loader : Z -> FedLoader) (test_loader : Z -> TestLoader)
  : (Model + Err) * list (Output Model TrainLog TestLog) :=
  epoch_loop rwc_train rwc_test a (py_range 1 (epochs a + 1)) model
             federated_train_loader test_loader.

(** Reading the output of the loop.  The output is in order when every
    epoch is its line, the training of the model the loop holds and the
    evaluation of the model the training returned, which the loop holds
    from then on. *)
Fixpoint threaded {Model FedLoader TestLoader TrainLog TestLog Err : Type}
         (rwc_train : Model -> FedLoader -> Qc -> Z -> (Model * TrainLog) + Err)
         (rwc_test : Model -> TestLoader -> TestLog + Err)
         (a : Arguments) (federated_train_loader : Z -> FedLoader)
         (test_loader : Z -> TestLoader) (model : Model)
         (out : list (Output Model TrainLog TestLog)) : Prop :=
  match out with
  | [] => True
  | OutEpoch epoch _ :: OutTrain given log :: OutTest trained test_log :: rest =>
      given = model
      /\ rwc_train model (federated_train_loader epoch) (lr a) (federate_after_n_batches a)
         = inl (trained, log)
      /\ rwc_test trained (test_loader epoch) = inl test_log
      /\ threaded rwc_train rwc_test a federated_train_loader test_loader trained rest
  | _ => False
  end.

(** The model the loop holds after the output [out]. *)
Fixpoint last_model {Model TrainLog TestLog : Type} (model : Model)
         (out : list (Output Model TrainLog TestLog)) : Model :=
  match out with
  | [] => model
  | OutTest trained _ :: rest => last_model trained rest
  | _ :: rest => last_model model rest
  end.

(** *** The rounds of [rwc.train] *)

(** Modelled from the spec: what [rwc.train], which
    [run_websocket_client.py] holds, relies on.  A worker trains its copy
    on one batch ([local_step]); the copies are float tensors held by the workers and
    [utils.federated_avg] averages them in floating point: both are the
    library's, and are left open here.  Whether a round whose windows hold
    fewer batches than asked, but one at least for every worker, is
    averaged is left open too ([averages_short_round]): the output stored
    in the notebook shows such a round trained like the others, and does
    not show what is done with its copies. *)
Class Library (Model FedBatch : Type) := {
  local_step : Qc -> Model -> FedBatch -> Model;
  federated_avg : list Model -> option Model;
  averages_short_round : bool
}.

Inductive Event (Model : Type) :=
| EvRound (first last : Z)
| EvLocalStep (worker batch_idx batches : nat)
| EvAggregate (fetched : list Model) (averaged : Model)
| EvStop.

Arguments EvRound {Model}.
Arguments EvLocalStep {Model}.
Arguments EvAggregate {Model}.
Arguments EvStop {Model}.

Inductive Error := AggregationFailed | OutOfFuel.

(** The batches of every worker, in worker order. *)
Definition Streams (FedBatch : Type) := list (list FedBatch).

(** Modelled from the spec: the training of one worker on its window of
    batches, which [run_websocket_client.py] holds: the worker starts from
    the shared baseline and takes one local step per batch. *)
Fixpoint train_on_batches {Model FedBatch} `{LB : Library Model FedBatch} (lr : Qc)
         (worker batch_idx batches : nat) (window : list FedBatch) (model : Model)
  : Model * list (Event Model) :=
  match window with
  | [] => (model, [])
  | b :: rest =>
      let '(m, evs) := train_on_batches lr worker (S batch_idx) batches rest
                                        (local_step lr model b) in
      (m, EvLocalStep worker batch_idx batches :: evs)
  end.

(** Modelled from the spec: a worker whose window is empty does not train
    and has no copy to give. *)
Fixpoint train_workers {Model FedBatch} `{LB : Library Model FedBatch} (lr : Qc) (worker : nat)
         (windows : Streams FedBatch) (baseline : Model) : list Model * list (Event Model) :=
  match windows with
  | [] => ([], [])
  | w :: rest =>
      let '(ms, evs') := train_workers lr (S worker) rest baseline in
      match w with
      | [] => (ms, evs')
      | _ =>
          let '(m, evs) := train_on_batches lr worker 0 (length w) w baseline in
          (m :: ms, evs ++ evs')
      end
  end.

(** Modelled from the spec: a worker has run out of data when its window
    holds no batch. *)
Definition ran_out {FedBatch} (window : list FedBatch) : bool :=
  match window with [] => true | _ => false end.

(** Modelled from the spec: a window is complete when it holds the [n]
    batches asked for. *)
Definition complete {FedBatch} (n : nat) (window : list FedBatch) : bool :=
  (length window =? n)%nat.

Inductive RoundResult (Model FedBatch : Type) :=
| Stop (events : list (Event Model))
| Continue (baseline : Model) (rest : Streams FedBatch) (events : list (Event Model))
| Failed (e : Error) (events : list (Event Model)).

Arguments Stop {Model FedBatch}.
Arguments Continue {Model FedBatch}.
Arguments Failed {Model FedBatch}.

(** Modelled from the spec: one round of [rwc.train], which
    [run_websocket_client.py] holds, with the stop placed where the output
    stored in the notebook shows it.  The round is announced; every worker
    that has batches left trains on its window of [n] batches at most,
    from the shared baseline.  When a worker had no batch left the stop is
    logged and nothing is averaged.  Otherwise the copies are fetched and
    averaged, the mean being the baseline of the next round. *)
Definition round {Model FedBatch} `{LB : Library Model FedBatch} (lr : Qc) (n : nat)
           (counter : Z) (baseline : Model) (streams : Streams FedBatch)
  : RoundResult Model FedBatch :=
  let windows := map (firstn n) streams in
  let '(copies, evs) := train_workers lr 0 windows baseline in
  let start := EvRound counter (counter + Z.of_nat n) in
  let rest := map (skipn n) streams in
  if existsb ran_out windows then Stop (start :: evs ++ [EvStop])
  else if forallb (complete n) windows || averages_short_round then
    match federated_avg copies with
    | None => Failed AggregationFailed (start :: evs)
    | Some avg => Continue avg rest (start :: evs ++ [EvAggregate copies avg])
    end
  else Continue baseline rest (start :: evs).

(** Modelled from the spec: the rounds of [rwc.train] follow one another
    until one of them stops; the model returned is the baseline of the
    round that stopped. *)
Fixpoint rounds {Model FedBatch} `{LB : Library Model FedBatch} (fuel : nat) (lr : Qc) (n : nat)
         (counter : Z) (baseline : Model) (streams : Streams FedBatch)
  : (Model * list (Event Model)) + (Error * list (Event Model)) :=
  match fuel with
  | O => inr (OutOfFuel, [])
  | S fuel' =>
      match round lr n counter baseline streams with
      | Stop evs => inl (baseline, evs)
      | Failed e evs => inr (e, evs)
      | Continue avg rest evs =>
          match rounds fuel' lr n (counter + Z.of_nat n) avg rest with
          | inl (m, evs') => inl (m, evs ++ evs')
          | inr (e, evs') => inr (e, evs ++ evs')
          end
      end
  end.

(** Modelled from the spec: [rwc.train(model, device, loader, lr,
    federate_after_n_batches)], which [run_websocket_client.py] holds. *)
Definition train {Model FedBatch} `{LB : Library Model FedBatch} (model : Model)
           (federated_train_loader : Streams FedBatch) (lr : Qc) (federate_after_n_batches : Z)
  : (Model * list (Event Model)) + (Error * list (Event Model)) :=
  rounds (S (length (concat federated_train_loader))) lr
         (Z.to_nat federate_after_n_batches) 0 model federated_train_loader.

(** Reading the log of [rwc.train]. *)
Definition is_round {Model} (e : Event Model) : bool :=
  match e with EvRound _ _ => true | _ => false end.




Definition log_of {Model} (r : (Model * list (Event Model)) + (Error * list (Event Model)))
  : list (Event Model) :=
  match r with
  | inl (_, evs) => evs
  | inr (_, evs) => evs
  end.


(** A library for small runs: a model counts the local steps that led to
    it, the average of the copies is the first of them, a short round is
    not averaged. *)
Definition counting_library : Library nat unit :=
  {| local_step := fun _ m _ => S m;
     federated_avg := fun ms => match ms with [] => None | m :: _ => Some m end;
     averages_short_round := false |}.

(** The streams of the run stored in the notebook: three workers, 313
    batches each. *)
Definition stored_streams : Streams unit := repeat (repeat tt 313) 3.

(** Two workers, the second one batch short of two windows of two. *)
Definition toy_streams : Streams unit := [[tt; tt; tt; tt]; [tt; tt; tt]].

End Federated.

(** ** Reading a run *)

(** The events a computation added to the trace. *)
Definition events_since (w w' : World) : list Event :=
  skipn (length (trace w)) (trace w').

Definition is_reveal (e : Event) : bool :=
  match e with EvReveal _ _ => true | _ => false end.

Definition is_yield (e : Event) : bool :=
  match e with EvYield _ => true | _ => false end.

Definition is_step (e : Event) : bool :=
  match e with EvStep => true | _ => false end.


(** The events that mark the progress of the loops: a function is entered,
    a batch is handed out, the gradients are zeroed, the backward pass is
    run, the optimizer steps. *)
Definition is_mark (e : Event) : bool :=
  match e with
  | EvEnter _ | EvYield _ | EvZeroGrad | EvBackward | EvStep => true
  | _ => false
  end.

(** What the iteration on batch [i] leaves among the marks. *)
Definition iteration_marks (i : nat) : list Event :=
  [EvYield i; EvZeroGrad; EvBackward; EvStep].

(** What one pass over a loader of [n] batches leaves among the marks. *)
Definition batch_marks (n : nat) : list Event :=
  flat_map iteration_marks (seq 0 n).

Definition epoch_marks (n : nat) (epoch : Z) : list Event :=
  EvEnter (FnTrain epoch) :: batch_marks n ++ [EvEnter FnTest].

(** The loss of [train] on a batch, at the parameters [p]. *)
Definition batch_loss `{SA : SharedArithmetic} (p : Net) (b : Batch) : option Qc :=
  and_then (forward p (fst b)) (fun output => loss_of output (snd b)).

(** The count of [test] on a batch, at the parameters [p]. *)
Definition batch_correct `{SA : SharedArithmetic} (p : Net) (b : TestBatch) : option Qc :=
  and_then (forward p (fst b)) (fun output =>
  and_then (argmax output) (fun pred => eq_sum pred (snd b))).

(** The number of correct predictions of a net over a test loader: the sum
    of the counts of its batches. *)
Definition correct_total `{SA : SharedArithmetic} (p : Net) (l : TestLoader) : Qc :=
  vsum (map (fun b => match batch_correct p b with Some c => c | None => 0 end) l).

(** The same number in the words of the specification: the examples whose
    predicted class, the position of the greatest output, is their label. *)
Definition hits (pred : list nat) (target : Vector) : nat :=
  length (filter (fun py => Qc_eq_bool (of_nat (fst py)) (snd py)) (combine pred target)).

Definition batch_hits `{SA : SharedArithmetic} (p : Net) (b : TestBatch) : nat :=
  match forward p (fst b) with
  | Some output => hits (argmax_dim1 output) (snd b)
  | None => 0
  end.

Definition correct_predictions `{SA : SharedArithmetic} (p : Net) (l : TestLoader) : nat :=
  list_sum (map (batch_hits p) l).

(** A disclosure is within bounds when it is the scalar loss of a batch of
    the train loader whose index is a multiple of [log_interval], at the
    parameters of some moment, or the scalar count of the evaluator over the
    test loader, the number of its correct predictions. *)
Definition disclosure_ok `{SA : SharedArithmetic} (a : Arguments) (private_train_loader : Loader)
           (private_test_loader : TestLoader) (e : Event) : Prop :=
  match e with
  | EvReveal (TrainLog batch_idx) v =>
      log_interval a <> 0%Z /\
      (Z.of_nat batch_idx mod log_interval a = 0)%Z /\
      exists b p loss,
        nth_error private_train_loader batch_idx = Some b
        /\ batch_loss p b = Some loss
        /\ v = Scalar loss
  | EvReveal TestCorrect v =>
      exists p,
        v = Scalar (correct_total p private_test_loader)
        /\ correct_total p private_test_loader
           = of_nat (correct_predictions p private_test_loader)
  | _ => True
  end.

(** The mean squared error in the words of the specification: the mean
    over the batch of the squared difference between the output and the
    one-hot target of an example, in the arithmetic of the shares. *)
Definition squared_difference `{SA : SharedArithmetic} (output_row target_row : Vector) : Qc :=
  vsum (map (fun d => share_mul d d) (vsub output_row target_row)).

Definition mean `{SA : SharedArithmetic} (xs : list Qc) : Qc :=
  share_div (vsum xs) (length xs).

Definition mse_spec `{SA : SharedArithmetic} (output target : Matrix) : Qc :=
  mean (zip_with squared_difference output target).

(** The three layers of the net one after the other, on a batch of rows. *)
Definition three_layers `{SA : SharedArithmetic} (n : Net) (x : Matrix) : option Matrix :=
  match linear (fc1 n) x with
  | None => None
  | Some h1 =>
      match linear (fc2 n) (relu h1) with
      | None => None
      | Some h2 => linear (fc3 n) (relu h2)
      end
  end.

(** The shapes that fit.  A layer takes [inputs] entries when every row of
    its weight has that many, and its bias has one entry per row of the
    weight; the layers of a net are chained from the 28 * 28 pixels of an
    image on; a batch of images has one image at least and 28 * 28 pixels
    to an image; a training target has one row per image and [classes]
    entries to a row, a test target one label per image. *)
Definition linear_ok (inputs : nat) (l : Linear) : bool :=
  rows_of_width inputs (weight l) && (length (bias l) =? out_features l)%nat.

Definition net_ok (n : Net) : bool :=
  linear_ok (28 * 28) (fc1 n)
  && linear_ok (out_features (fc1 n)) (fc2 n)
  && linear_ok (out_features (fc2 n)) (fc3 n).

Definition images_ok (data : Matrix) : bool :=
  negb (length data =? 0)%nat && rows_of_width (28 * 28) data.

Definition batch_ok (classes : nat) (b : Batch) : bool :=
  images_ok (fst b) && (length (snd b) =? length (fst b))%nat && rows_of_width classes (snd b).

Definition test_batch_ok (b : TestBatch) : bool :=
  images_ok (fst b) && (length (snd b) =? length (fst b))%nat.

(** The number of classes a net tells apart. *)
Definition classes (n : Net) : nat := out_features (fc3 n).

(** One step of gradient descent on one batch, from the gradient of that
    batch alone. *)
Definition sgd_update `{SA : SharedArithmetic} `{AG : Autograd} (rate : Qc) (p : Net) (b : Batch)
  : Net :=
  Params.sub p (Params.scale rate (autograd p (fst b) (snd b))).

(** The gradient buffers after a pass over a loader, when every step is
    taken from the gradient of its own batch: what the last batch left. *)
Fixpoint buffers_after `{SA : SharedArithmetic} `{AG : Autograd} (rate : Qc) (l : Loader)
         (p : Net) (g : option Net) : option Net :=
  match l with
  | [] => g
  | b :: l' => buffers_after rate l' (sgd_update rate p b) (Some (autograd p (fst b) (snd b)))
  end.

(** The gradient buffers, when they exist, have the shape of the
    parameters. *)
Definition grads_ok (w : World) : Prop :=
  match grads w with
  | None => True
  | Some g => Params.same_shape g (params w)
  end.

(** The gradient buffers after [zero_grad]. *)
Definition zeroed (g : option Net) : option Net :=
  match g with
  | None => None
  | Some g => Some (Params.zeros_like g)
  end.

(** The gradient buffers after [zero_grad] and [backward] on a batch. *)
Definition grads_after `{AG : Autograd} (w : World) (b : Batch) : Net :=
  let d := autograd (params w) (fst b) (snd b) in
  match grads w with
  | None => d
  | Some g => Params.add (Params.zeros_like g) d
  end.

(** The world after one iteration of the loop of [train] that added [evs]
    to the trace. *)
Definition world_after `{SA : SharedArithmetic} `{AG : Autograd} (optimizer : Optimizer)
           (w : World) (b : Batch) (evs : list Event) : World :=
  {| params := Params.sub (params w) (Params.scale (opt_lr optimizer) (grads_after w b));
     grads := Some (grads_after w b);
     training := training w;
     grad_enabled := grad_enabled w;
     trace := trace w ++ evs |}.

(** The world after an iteration of the loop of [train] in which the
    forward pass or the loss was refused: the gradients were zeroed, no
    step was taken. *)
Definition world_refused (w : World) (i : nat) : World :=
  {| params := params w;
     grads := zeroed (grads w);
     training := training w;
     grad_enabled := grad_enabled w;
     trace := trace w ++ [EvYield i; EvZeroGrad; EvForward (grad_enabled w)] |}.

Definition body_events (w : World) (i : nat) : list Event :=
  [EvYield i; EvZeroGrad; EvForward (grad_enabled w); EvBackward; EvStep].

Definition log_events (a : Arguments) (len : nat) (epoch : Z) (i : nat) (loss : Qc)
  : list Event :=
  [EvReveal (TrainLog i) (Scalar loss);
   EvPrint (TrainLine epoch (Z.of_nat i * batch_size a) (Z.of_nat len * batch_size a) loss)].

(** The world in which the loop of [train] starts. *)
Definition train_entered (epoch : Z) (w : World) : World :=
  {| params := params w; grads := grads w; training := true;
     grad_enabled := grad_enabled w;
     trace := trace w ++ [EvEnter (FnTrain epoch); EvSetMode true] |}.

(** The value of [correct] after the loop of [test]; none when a batch is
    refused. *)
Fixpoint test_count `{SA : SharedArithmetic} (p : Net) (l : TestLoader) (c : Correct)
  : option Correct :=
  match l with
  | [] => Some c
  | b :: l' =>
      match batch_correct p b with
      | Some n => test_count p l' (correct_iadd c n)
      | None => None
      end
  end.

(** The number of forward passes of the loop of [test]: one per batch, up
    to the first batch that is refused. *)
Fixpoint test_forwards `{SA : SharedArithmetic} (p : Net) (l : TestLoader) : nat :=
  match l with
  | [] => 0
  | b :: l' =>
      match batch_correct p b with
      | Some _ => S (test_forwards p l')
      | None => 1
      end
  end.

(** How [test] ends and what it adds to the trace. *)
Definition test_outcome `{SA : SharedArithmetic} (a : Arguments) (p : Net) (l : TestLoader)
  : unit + Exn :=
  match test_count p l (CInt 0) with
  | None => inr RuntimeError
  | Some (CInt _) => inr AttributeError
  | Some (CTensor _) =>
      if (Z.of_nat (length l) * test_batch_size a =? 0)%Z then inr ZeroDivisionError
      else inl tt
  end.

Definition test_events `{SA : SharedArithmetic} (a : Arguments) (p : Net) (l : TestLoader)
  : list Event :=
  [EvEnter FnTest; EvSetMode false] ++ repeat (EvForward false) (test_forwards p l) ++
  match test_count p l (CInt 0) with
  | Some (CTensor x) =>
      let total := (Z.of_nat (length l) * test_batch_size a)%Z in
      EvReveal TestCorrect (Scalar x) ::
      (if (total =? 0)%Z then [] else [EvPrint (TestLine x total)])
  | _ => []
  end.

Definition world_after_test `{SA : SharedArithmetic} (a : Arguments) (l : TestLoader) (w : World)
  : World :=
  {| params := params w; grads := grads w; training := false;
     grad_enabled := grad_enabled w;
     trace := trace w ++ test_events a (params w) l |}.

(** ** Small inputs *)

(** A fixed-precision arithmetic to run the loops with: the exact result,
    cut towards zero to the default number of digits. *)
Definition truncating : SharedArithmetic :=
  {| share_mul := fun x y => fix_precision default_precision (x * y);
     share_dot := fun u v => fix_precision default_precision (vsum (zip_with Qcmult u v));
     share_div := fun x n => fix_precision default_precision (x / of_nat n) |}.

(** A gradient rule to run the loops with: the gradient of half the squared
    norm of the parameters, which is the parameters themselves. *)
Definition toy_autograd : Autograd.
Proof.
  refine {| autograd := fun n _ _ => n |}.
  intros n _ _. unfold Params.same_shape, Params.lshape, Params.mshape, Params.vshape.
  repeat split; try reflexivity;
    match goal with |- Forall2 _ ?m ?m => induction m; constructor; auto end.
Defined.

Definition toy_linear : Linear := {| weight := [[1; 0]; [0; 1]]; bias := [0; 0] |}.

Definition toy_net : Net := {| fc1 := toy_linear; fc2 := toy_linear; fc3 := toy_linear |}.

Definition toy_train_loader : Loader :=
  [([[1; 1 + 1]], [[1; 0]]); ([[0; 1]], [[0; 1]]); ([[1; 0]], [[1; 0]])].

Definition toy_test_loader : TestLoader := [([[1; 1 + 1]], [1]); ([[1; 0]], [0])].

(** The hyper-parameters of the notebook, for one epoch that logs every
    second batch. *)
Definition one_epoch_args : Arguments := {|
  batch_size := 64;
  test_batch_size := 64;
  epochs := 1;
  lr := Q2Qc (2 # 100);
  seed := 1;
  log_interval := 2;
  precision_fractional := 3
|}.

(** The same with [log_interval] set to zero. *)
Definition no_log_args : Arguments := {|
  batch_size := 64;
  test_batch_size := 64;
  epochs := 1;
  lr := Q2Qc (2 # 100);
  seed := 1;
  log_interval := 0;
  precision_fractional := 3
|}.

(** The places of the disclosures of a trace, in order. *)
Definition reveal_sites (evs : list Event) : list Site :=
  flat_map (fun e => match e with EvReveal site _ => [site] | _ => [] end) evs.

(** A data set of two training items and one held-out item. *)
Definition tiny_mnist (train : bool) : list Example :=
  if train then [([1; 0], 3%nat); ([0; 1], 7%nat)] else [([1; 1], 1%nat)].

(** An image of 28 * 28 pixels, all of them blank but the first. *)
Definition image (first_pixel : Qc) : Vector := first_pixel :: repeat 0 (28 * 28 - 1).

Definition blank_image : Vector := repeat 0 (28 * 28).

Definition blank_batch : Matrix := [blank_image; blank_image].

(** A layer of the given sizes: the first unit reads the first entry of its
    input, the other weights are zero; the bias is given. *)
Definition first_entry_layer (inputs outputs : nat) (b : Vector) : Linear :=
  {| weight := (1 :: repeat 0 (inputs - 1)) :: repeat (repeat 0 inputs) (outputs - 1);
     bias := b |}.

(** A net with the sizes of [Net()]: 28 * 28 inputs, layers of 128, 64 and
    10 units.  Its output for an image whose first pixel is [x] is [x]
    for the class 0 when [x] is positive, and a half for the class 1. *)
Definition small_weights_net : Net :=
  {| fc1 := first_entry_layer (28 * 28) 128 (repeat 0 128);
     fc2 := first_entry_layer 128 64 (repeat 0 64);
     fc3 := first_entry_layer 64 10 (0 :: Q2Qc (1 # 2) :: repeat 0 8) |}.

Definition one_hot (label : nat) : Vector :=
  map (fun j => if (j =? label)%nat then 1 else 0) (seq 0 10).

(** Three batches of images, with their one-hot targets. *)
Definition small_train_loader : Loader :=
  [([image 1; image 0], [one_hot 0; one_hot 1]);
   ([image 0], [one_hot 1]);
   ([image 1], [one_hot 3])].

(** Two batches of images, with their labels. *)
Definition small_test_loader : TestLoader :=
  [([image 1; image 0], [0; 1]); ([image 1], [1 + 1 + 1])].

(** A data set of two blank training images, and the loaders built from
    it with the hyper-parameters of the notebook. *)
Definition blank_mnist (train : bool) : list Example :=
  if train then [(blank_image, 3%nat); (blank_image, 7%nat)] else [].

Definition blank_train_loader : Loader :=
  [(blank_batch, [[0; 0; 0; 1; 0; 0; 0; 0; 0; 0]; [0; 0; 0; 0; 0; 0; 0; 1; 0; 0]])].

Definition blank_test_loader : TestLoader :=
  [(blank_batch, [of_nat 3; of_nat 7])].

(** ** The simulated workers *)

Module Workers.

Import String.

(** [sy.VirtualWorker(hook, id=...)]: a worker is known by its id. *)
Record VirtualWorker := { id : string }.

(** [f"worker{i+1}"]: the number is written in decimal. *)
Definition worker_id (i : nat) : string :=
  append "worker" (DecimalString.NilEmpty.string_of_uint (Nat.to_uint (i + 1))).

Definition connect_to_workers (n_workers : Z) : list VirtualWorker :=
  map (fun i => {| id := worker_id i |}) (seq 0 (Z.to_nat n_workers)).

Definition connect_to_crypto_provider : VirtualWorker := {| id := "crypto_provider" |}.

Definition workers : list VirtualWorker := connect_to_workers 2.

Definition crypto_provider : VirtualWorker := connect_to_crypto_provider.

End Workers.

(** ** Reading the loaders and the runs further *)

(** The number of batches the private loaders keep: the indices [i] with
    [i < n_items / batch]. *)
Definition kept_batches (n_items batch : Z) : nat :=
  Z.to_nat ((n_items + batch - 1) / batch).

(** The number of examples of a test loader. *)
Definition n_examples (l : TestLoader) : nat := length (concat (map snd l)).

(** The disclosures of a call of [train] over the loader [l], entered with
    the parameters [p], the first batch having the index [i]: for every
    batch whose index is a multiple of [log_interval], the loss of the batch
    at the parameters the batch was given. *)
Fixpoint train_reveals `{SA : SharedArithmetic} `{AG : Autograd} (log_interval : Z) (rate : Qc)
         (i : nat) (l : Loader) (p : Net) : list Event :=
  match l with
  | [] => []
  | b :: l' =>
      (if (Z.of_nat i mod log_interval =? 0)%Z
       then match batch_loss p b with
            | Some loss => [EvReveal (TrainLog i) (Scalar loss)]
            | None => []
            end
       else [])
      ++ train_reveals log_interval rate (S i) l' (sgd_update rate p b)
  end.

(** ** Lemmas on tensors *)

Lemma zip_with_length {A B C} (f : A -> B -> C) (l1 : list A) (l2 : list B) :
  length l1 = length l2 -> length (zip_with f l1 l2) = length l1.
Proof.
  revert l2; induction l1 as [|a l1 IH]; intros [|b l2]; simpl; intros E;
    try discriminate; auto.
Qed.

Lemma vsum_app (u v : Vector) : vsum (u ++ v) = vsum u + vsum v.
Proof.
  induction u as [|x u IH]; simpl.
  - now rewrite Qcplus_0_l.
  - fold (vsum (u ++ v)); fold (vsum u). rewrite IH. ring.
Qed.

Lemma vsum_cons (x : Qc) (v : Vector) : vsum (x :: v) = x + vsum v.
Proof. reflexivity. Qed.

Lemma of_Z_plus (x y : Z) : of_Z (x + y) = of_Z x + of_Z y.
Proof.
  unfold of_Z, Qcplus. apply Q2Qc_eq_iff. cbn [this Q2Qc].
  rewrite !Qred_correct, inject_Z_plus. reflexivity.
Qed.

Lemma of_nat_S (n : nat) : of_nat (S n) = of_nat n + 1.
Proof.
  unfold of_nat. rewrite Nat2Z.inj_succ, <- Z.add_1_r.
  exact (of_Z_plus (Z.of_nat n) 1).
Qed.

Lemma of_nat_plus (m n : nat) : of_nat (m + n) = of_nat m + of_nat n.
Proof. unfold of_nat. rewrite Nat2Z.inj_add. apply of_Z_plus. Qed.

(** The sum of all the entries is the sum, over the rows, of the sum of a
    row. *)
Lemma msum_rows (m : Matrix) : msum m = vsum (map vsum m).
Proof.
  unfold msum. induction m as [|r m IH]; simpl; auto.
  rewrite vsum_app. fold (vsum (map vsum m)). now rewrite IH.
Qed.

Lemma map_opt_some {A B} (f : A -> option B) (g : A -> B) (l : list A) :
  (forall x, In x l -> f x = Some (g x)) -> map_opt f l = Some (map g l).
Proof.
  induction l as [|x l IH]; intros H; cbn [map_opt map]; [reflexivity|].
  rewrite (H x (or_introl eq_refl)), IH; [reflexivity|].
  intros y Hy. apply H. now right.
Qed.

Lemma map_opt_length {A B} (f : A -> option B) (l : list A) :
  forall ys, map_opt f l = Some ys -> length ys = length l.
Proof.
  induction l as [|x l IH]; intros ys E; cbn [map_opt] in E.
  - injection E as <-. reflexivity.
  - destruct (f x); [|discriminate]. destruct (map_opt f l); [|discriminate].
    injection E as <-. cbn [length]. f_equal. now apply IH.
Qed.

Lemma map_opt_forall {A B} (f : A -> option B) (P : B -> Prop) (l : list A) :
  (forall x y, In x l -> f x = Some y -> P y) ->
  forall ys, map_opt f l = Some ys -> Forall P ys.
Proof.
  induction l as [|x l IH]; intros H ys E; cbn [map_opt] in E.
  - injection E as <-. constructor.
  - destruct (f x) as [y|] eqn:Ey; [|discriminate].
    destruct (map_opt f l) as [ys'|]; [|discriminate].
    injection E as <-. constructor.
    + apply (H x y); [now left | assumption].
    + apply IH; [|reflexivity]. intros x' y' Hin. apply H. now right.
Qed.

Lemma rows_of_width_forall (cols : nat) (m : Matrix) :
  rows_of_width cols m = true <-> Forall (fun row => length row = cols) m.
Proof.
  unfold rows_of_width. rewrite forallb_forall, Forall_forall.
  split; intros H row Hin; specialize (H row Hin); now apply Nat.eqb_eq.
Qed.

Lemma zip_with_combine {A B C} (f : A -> B -> C) (l1 : list A) (l2 : list B) :
  zip_with f l1 l2 = map (fun xy => f (fst xy) (snd xy)) (combine l1 l2).
Proof.
  revert l2; induction l1 as [|a l1 IH]; intros [|b l2]; cbn [zip_with combine map fst snd];
    try reflexivity.
  now rewrite IH.
Qed.

(** On tensors of the same shape the difference is taken entry by
    entry. *)
Lemma vsub_same_length (u v : Vector) :
  length u = length v -> vsub_broadcast u v = Some (vsub u v).
Proof.
  intros E. unfold vsub_broadcast, broadcast, vsub. apply Nat.eqb_eq in E. rewrite E.
  rewrite zip_with_combine. now apply map_opt_some.
Qed.

Lemma msub_same_shape (cols : nat) (a b : Matrix) :
  length a = length b ->
  rows_of_width cols a = true -> rows_of_width cols b = true ->
  msub_broadcast a b = Some (msub a b).
Proof.
  intros E Ha Hb. unfold msub_broadcast, broadcast, msub.
  pose proof E as E'. apply Nat.eqb_eq in E'. rewrite E'. clear E'.
  rewrite zip_with_combine. apply map_opt_some.
  apply rows_of_width_forall in Ha, Hb. rewrite Forall_forall in Ha, Hb.
  intros [u v] Hin. cbn [fst snd]. apply vsub_same_length.
  rewrite (Ha u), (Hb v); [reflexivity | |].
  - eapply in_combine_r; eassumption.
  - eapply in_combine_l; eassumption.
Qed.

Lemma squares_rows `{SA : SharedArithmetic} (output target : Matrix) :
  map vsum (map (map (fun d => share_mul d d)) (msub output target))
  = zip_with squared_difference output target.
Proof.
  unfold msub. revert target; induction output as [|o output IH]; intros [|t target];
    cbn [zip_with map]; auto.
  f_equal. apply IH.
Qed.

(** The loss of [train] is the mean squared error of the specification
    when the output and the target have the same shape. *)
Lemma loss_of_mse_spec `{SA : SharedArithmetic} (cols : nat) (output target : Matrix) :
  output <> [] ->
  length target = length output ->
  rows_of_width cols output = true -> rows_of_width cols target = true ->
  loss_of output target = Some (mse_spec output target).
Proof.
  intros Hne E Ho Ht. unfold loss_of.
  rewrite (msub_same_shape cols) by auto. cbn [and_then]. unfold shape0.
  destruct output as [|o output]; [contradiction|].
  cbn [length Nat.eqb]. unfold mse_spec, mean, refresh.
  rewrite msum_rows, squares_rows, zip_with_length by auto.
  reflexivity.
Qed.

(** ** Lemmas on the model *)

Section Batching.

Context {A : Type}.

Lemma batches_aux_concat (n : nat) :
  (1 <= n)%nat ->
  forall (fuel : nat) (items : list A),
    (length items <= fuel)%nat ->
    concat (DataLoader.batches_aux fuel n items) = items.
Proof.
  intros Hn. induction fuel as [|fuel IH]; intros items Hlen.
  - destruct items; [reflexivity | cbn in Hlen; lia].
  - cbn [DataLoader.batches_aux]. destruct items as [|x items]; [reflexivity|].
    cbn [concat]. rewrite IH.
    + apply firstn_skipn.
    + rewrite length_skipn. cbn [length] in *. lia.
Qed.

Lemma batches_aux_bounds (n : nat) :
  (1 <= n)%nat ->
  forall (fuel : nat) (items : list A),
    Forall (fun b => (1 <= length b <= n)%nat) (DataLoader.batches_aux fuel n items).
Proof.
  intros Hn. induction fuel as [|fuel IH]; intros items; [constructor|].
  cbn [DataLoader.batches_aux]. destruct items as [|x items]; constructor; [|apply IH].
  rewrite length_firstn. cbn [length]. lia.
Qed.



Lemma enumerate_from_snd (l : list A) :
  forall i0, map snd (DataLoader.enumerate_from i0 l) = l.
Proof. induction l as [|x l IH]; intros i0; cbn; [|rewrite IH]; reflexivity. Qed.

(** Keeping the entries whose index is below [k] keeps the first ones. *)
Lemma filter_enumerate_lt (k : nat) (l : list A) :
  forall i0,
    map snd (filter (fun ib => (fst ib <? k)%nat) (DataLoader.enumerate_from i0 l))
    = firstn (k - i0) l.
Proof.
  induction l as [|x l IH]; intros i0; cbn [DataLoader.enumerate_from filter fst].
  - now rewrite firstn_nil.
  - destruct (Nat.ltb_spec i0 k) as [Hlt|Hge].
    + cbn [map snd]. rewrite IH.
      replace (k - i0)%nat with (S (k - S i0)) by lia. reflexivity.
    + rewrite IH. replace (k - S i0)%nat with 0%nat by lia.
      replace (k - i0)%nat with 0%nat by lia. reflexivity.
Qed.

Lemma Forall_firstn_keep (P : A -> Prop) (k : nat) (l : list A) :
  Forall P l -> Forall P (firstn k l).
Proof.
  intros H. revert k. induction H; intros [|k]; cbn [firstn]; constructor; auto.
Qed.

End Batching.

Lemma concat_rows_length (c : nat) (x : Matrix) :
  Forall (fun r => length r = c) x -> length (concat x) = (length x * c)%nat.
Proof.
  intros H. induction H as [|r x Hr _ IH]; cbn [concat length]; [reflexivity|].
  rewrite length_app, IH, Hr. lia.
Qed.

Lemma batches_aux_rows (c : nat) :
  (1 <= c)%nat ->
  forall (x : Matrix) (fuel : nat),
    (length x <= fuel)%nat ->
    Forall (fun r => length r = c) x ->
    DataLoader.batches_aux fuel c (concat x) = x.
Proof.
  intros Hc. induction x as [|r x IH]; intros fuel Hfuel Hrows.
  - destruct fuel; reflexivity.
  - inversion Hrows as [|r' x' Hr Hx]; subst.
    destruct fuel as [|fuel]; [cbn in Hfuel; lia|].
    cbn [concat DataLoader.batches_aux].
    destruct r as [|y r]; [cbn in Hc; lia|].
    cbn [app]. change (y :: r ++ concat x) with ((y :: r) ++ concat x).
    rewrite firstn_app, skipn_app, Nat.sub_diag, firstn_all, skipn_all.
    cbn [firstn skipn app]. rewrite app_nil_r. f_equal.
    apply IH; [cbn in Hfuel; lia | assumption].
Qed.

(** A tensor whose rows have [cols] elements goes through
    [view(-1, cols)] unchanged, when it has a row at least. *)
Lemma view_rows (cols : nat) (x : Matrix) :
  (1 <= cols)%nat -> x <> [] -> rows_of_width cols x = true -> view cols x = Some x.
Proof.
  intros Hc Hne Hrows. apply rows_of_width_forall in Hrows. unfold view.
  rewrite (concat_rows_length cols x Hrows).
  assert (Hlen : (1 <= length x)%nat) by (destruct x; [contradiction | cbn; lia]).
  destruct (Nat.eqb_spec cols 0) as [E|_]; [lia|].
  destruct (Nat.eqb_spec (length x * cols) 0) as [E|_]; [nia|].
  rewrite Nat.Div0.mod_mul. cbn [Nat.eqb negb orb].
  f_equal. apply batches_aux_rows; [assumption | nia | assumption].
Qed.

Lemma images_ok_spec (data : Matrix) :
  images_ok data = true <-> data <> [] /\ rows_of_width (28 * 28) data = true.
Proof.
  unfold images_ok. rewrite andb_true_iff, negb_true_iff, Nat.eqb_neq.
  destruct data; cbn [length]; intuition (try discriminate; try lia; congruence).
Qed.

Lemma view_images (x : Matrix) : images_ok x = true -> view (28 * 28) x = Some x.
Proof.
  intros H. apply images_ok_spec in H. destruct H as [Hne Hrows].
  apply view_rows; [cbn; lia | assumption | assumption].
Qed.

Section Layers.

Context `{SA : SharedArithmetic}.

Lemma matmul_row_run (w : Matrix) (row : Vector) :
  rows_of_width (length row) w = true ->
  matmul_row w row = Some (map (share_dot row) w).
Proof. unfold matmul_row. now intros ->. Qed.

Lemma add_bias_run (b y : Vector) :
  length b = length y -> add_bias b y = Some (vadd y b).
Proof. unfold add_bias. intros E. apply Nat.eqb_eq in E. now rewrite E. Qed.

(** A layer on rows of the width it takes. *)
Lemma linear_run (inputs : nat) (l : Linear) (x : Matrix) :
  linear_ok inputs l = true ->
  rows_of_width inputs x = true ->
  exists y,
    linear l x = Some y
    /\ length y = length x
    /\ rows_of_width (out_features l) y = true.
Proof.
  unfold linear_ok. rewrite andb_true_iff, Nat.eqb_eq. intros [Hw Hb] Hx.
  exists (map (fun row => vadd (map (share_dot row) (weight l)) (bias l)) x).
  split; [|split].
  - unfold linear. apply map_opt_some. intros row Hin.
    apply rows_of_width_forall in Hx. rewrite Forall_forall in Hx.
    rewrite matmul_row_run by (rewrite (Hx row Hin); exact Hw).
    cbn [and_then]. apply add_bias_run. now rewrite length_map.
  - apply length_map.
  - apply rows_of_width_forall, Forall_map, Forall_forall. intros row _.
    unfold vadd. rewrite zip_with_length; rewrite length_map; [reflexivity|].
    symmetry. exact Hb.
Qed.

Lemma relu_length (x : Matrix) : length (relu x) = length x.
Proof. unfold relu. apply length_map. Qed.

Lemma relu_rows (cols : nat) (x : Matrix) :
  rows_of_width cols x = true -> rows_of_width cols (relu x) = true.
Proof.
  rewrite !rows_of_width_forall. unfold relu. intros H.
  apply Forall_map. eapply Forall_impl; [|exact H].
  intros row Hr. cbn beta. now rewrite length_map.
Qed.

(** On a batch of images the forward pass is the three layers one after
    the other. *)
Lemma forward_images (n : Net) (x : Matrix) :
  images_ok x = true -> forward n x = three_layers n x.
Proof.
  intros H. unfold forward, three_layers. rewrite (view_images x H). cbn [and_then].
  destruct (linear (fc1 n) x) as [h1|]; [|reflexivity]. cbn [and_then].
  destruct (linear (fc2 n) (relu h1)) as [h2|]; reflexivity.
Qed.

(** A net whose layers are chained accepts a batch of images, and gives a
    row per image, with an entry per class. *)
Lemma forward_run (n : Net) (x : Matrix) :
  net_ok n = true ->
  images_ok x = true ->
  exists output,
    forward n x = Some output
    /\ length output = length x
    /\ rows_of_width (classes n) output = true.
Proof.
  unfold net_ok. rewrite !andb_true_iff. intros [[H1 H2] H3] Hx.
  rewrite (forward_images n x Hx). unfold three_layers.
  apply images_ok_spec in Hx. destruct Hx as [_ Hrows].
  destruct (linear_run _ _ _ H1 Hrows) as (h1 & -> & Hl1 & Hr1).
  destruct (linear_run _ _ (relu h1) H2 (relu_rows _ _ Hr1)) as (h2 & -> & Hl2 & Hr2).
  destruct (linear_run _ _ (relu h2) H3 (relu_rows _ _ Hr2)) as (h3 & -> & Hl3 & Hr3).
  exists h3. split; [reflexivity|]. split; [|exact Hr3].
  rewrite Hl3, relu_length, Hl2, relu_length, Hl1. reflexivity.
Qed.

Lemma batch_ok_spec (k : nat) (b : Batch) :
  batch_ok k b = true
  <-> images_ok (fst b) = true /\ length (snd b) = length (fst b)
      /\ rows_of_width k (snd b) = true.
Proof.
  unfold batch_ok. rewrite !andb_true_iff, Nat.eqb_eq. tauto.
Qed.

(** The loss of a batch that fits the net. *)
Lemma batch_loss_run (p : Net) (b : Batch) :
  net_ok p = true ->
  batch_ok (classes p) b = true ->
  exists output,
    forward p (fst b) = Some output
    /\ length output = length (fst b)
    /\ rows_of_width (classes p) output = true
    /\ loss_of output (snd b) = Some (mse_spec output (snd b))
    /\ batch_loss p b = Some (mse_spec output (snd b)).
Proof.
  intros Hp Hb. apply batch_ok_spec in Hb. destruct Hb as (Hx & Hlen & Ht).
  destruct (forward_run p (fst b) Hp Hx) as (output & Hf & Hl & Hr).
  assert (Hloss : loss_of output (snd b) = Some (mse_spec output (snd b))).
  { apply (loss_of_mse_spec (classes p)); auto; [|congruence].
    apply images_ok_spec in Hx. destruct Hx as [Hne _].
    destruct output; [|discriminate]. destruct (fst b); [contradiction | discriminate]. }
  exists output. repeat split; auto.
  unfold batch_loss. rewrite Hf. exact Hloss.
Qed.

Lemma hits_count (pred : list nat) :
  forall target : Vector,
    vsum (zip_with (fun p y => if Qc_eq_bool (of_nat p) y then 1 else 0) pred target)
    = of_nat (hits pred target).
Proof.
  unfold hits. induction pred as [|p pred IH]; intros [|y target];
    cbn [zip_with combine filter length vsum fold_right fst snd]; try reflexivity.
  fold (vsum (zip_with (fun p y => if Qc_eq_bool (of_nat p) y then 1 else 0) pred target)).
  rewrite IH. destruct (Qc_eq_bool (of_nat p) y); cbn [length].
  - rewrite of_nat_S. ring.
  - ring.
Qed.

Lemma hits_le (pred : list nat) (target : Vector) : (hits pred target <= length target)%nat.
Proof.
  unfold hits. etransitivity; [apply filter_length_le|].
  rewrite length_combine. lia.
Qed.

Lemma eq_sum_hits (pred : list nat) (target : Vector) (n : Qc) :
  eq_sum pred target = Some n -> n = of_nat (hits pred target).
Proof.
  unfold eq_sum. destruct (length target =? length pred)%nat; [|discriminate].
  intros E. injection E as <-. apply hits_count.
Qed.

Lemma argmax_some (output : Matrix) (pred : list nat) :
  argmax output = Some pred -> pred = argmax_dim1 output.
Proof.
  unfold argmax.
  destruct (forallb (fun row => negb (length row =? 0)%nat) output); [|discriminate].
  congruence.
Qed.

(** The count of a batch, when the batch is accepted, is the number of its
    examples whose predicted class is their label. *)
Lemma batch_correct_hits (p : Net) (b : TestBatch) (n : Qc) :
  batch_correct p b = Some n -> n = of_nat (batch_hits p b).
Proof.
  unfold batch_correct, batch_hits. destruct (forward p (fst b)) as [output|]; [|discriminate].
  cbn [and_then]. destruct (argmax output) as [pred|] eqn:Ea; [|discriminate].
  cbn [and_then]. apply argmax_some in Ea. subst pred. apply eq_sum_hits.
Qed.

Lemma test_batch_ok_spec (b : TestBatch) :
  test_batch_ok b = true <-> images_ok (fst b) = true /\ length (snd b) = length (fst b).
Proof. unfold test_batch_ok. rewrite andb_true_iff, Nat.eqb_eq. tauto. Qed.

(** The count of a test batch that fits the net. *)
Lemma batch_correct_run (p : Net) (b : TestBatch) :
  net_ok p = true ->
  (1 <= classes p)%nat ->
  test_batch_ok b = true ->
  batch_correct p b = Some (of_nat (batch_hits p b)).
Proof.
  intros Hp Hc Hb. apply test_batch_ok_spec in Hb. destruct Hb as [Hx Hlen].
  destruct (forward_run p (fst b) Hp Hx) as (output & Hf & Hl & Hr).
  unfold batch_correct, batch_hits. rewrite Hf. cbn [and_then].
  assert (Ha : argmax output = Some (argmax_dim1 output)).
  { unfold argmax. apply rows_of_width_forall in Hr.
    replace (forallb (fun row => negb (length row =? 0)%nat) output) with true;
      [reflexivity|].
    symmetry. apply forallb_forall. intros row Hin.
    rewrite Forall_forall in Hr. rewrite (Hr row Hin).
    destruct (classes p); [lia | reflexivity]. }
  rewrite Ha. cbn [and_then]. unfold eq_sum, argmax_dim1. rewrite length_map.
  replace (length (snd b) =? length output)%nat with true
    by (symmetry; apply Nat.eqb_eq; congruence).
  now rewrite hits_count.
Qed.

End Layers.

(** ** Lemmas on the parameters *)

Section Shapes.

Import Params.

Lemma vshape_sym u v : vshape u v -> vshape v u.
Proof. unfold vshape; auto. Qed.

Lemma vshape_trans u v w : vshape u v -> vshape v w -> vshape u w.
Proof. unfold vshape; congruence. Qed.

Lemma mshape_refl a : mshape a a.
Proof. unfold mshape. induction a; constructor; [reflexivity | assumption]. Qed.

Lemma mshape_sym a b : mshape a b -> mshape b a.
Proof. unfold mshape. induction 1; constructor; auto using vshape_sym. Qed.

Lemma mshape_trans a b c : mshape a b -> mshape b c -> mshape a c.
Proof.
  unfold mshape. intros H; revert c.
  induction H as [|u v a b Huv _ IH]; intros c Hc; inversion Hc; subst;
    constructor; [eapply vshape_trans; eauto | apply IH; assumption].
Qed.

Lemma same_shape_refl a : same_shape a a.
Proof. unfold same_shape, lshape, vshape. auto using mshape_refl. Qed.

Lemma same_shape_sym a b : same_shape a b -> same_shape b a.
Proof.
  unfold same_shape, lshape. intuition auto using mshape_sym, vshape_sym.
Qed.

Lemma same_shape_trans a b c : same_shape a b -> same_shape b c -> same_shape a c.
Proof.
  unfold same_shape, lshape. intuition eauto using mshape_trans, vshape_trans.
Qed.

Lemma vadd_zeros_like g d : vshape g d -> vadd (vzeros_like g) d = d.
Proof.
  unfold vshape, vadd, vzeros_like.
  revert d; induction g as [|x g IH]; intros [|y d]; cbn [zip_with map length];
    intros E; try discriminate; auto.
  rewrite Qcplus_0_l. f_equal. apply IH. congruence.
Qed.

Lemma madd_zeros_like g d : mshape g d -> madd (mzeros_like g) d = d.
Proof.
  unfold mshape, madd, mzeros_like.
  induction 1 as [|u v g d Huv _ IH]; cbn [zip_with map]; auto.
  f_equal; auto using vadd_zeros_like.
Qed.

Lemma add_zeros_like g d : same_shape g d -> add (zeros_like g) d = d.
Proof.
  destruct d as [[w1 b1] [w2 b2] [w3 b3]], g as [[gw1 gb1] [gw2 gb2] [gw3 gb3]].
  unfold same_shape, lshape; simpl. intros [[? ?] [[? ?] [? ?]]].
  unfold add, zeros_like, map2, map1, lin_map2, lin_map; simpl.
  repeat f_equal; auto using vadd_zeros_like, madd_zeros_like.
Qed.

Lemma mshape_zeros_like g : mshape (mzeros_like g) g.
Proof.
  unfold mshape, mzeros_like. induction g; cbn [map]; constructor; [|assumption].
  unfold vshape, vzeros_like. apply length_map.
Qed.

Lemma same_shape_zeros_like g : same_shape (zeros_like g) g.
Proof.
  unfold same_shape, lshape, vshape; simpl. unfold vzeros_like.
  rewrite !length_map. auto using mshape_zeros_like.
Qed.

Lemma vshape_step (f : Qc -> Qc) p d : vshape d p -> vshape (vsub p (map f d)) p.
Proof.
  unfold vshape, vsub. intros E.
  apply zip_with_length. rewrite length_map. auto.
Qed.

Lemma mshape_step (f : Qc -> Qc) p d : mshape d p -> mshape (msub p (map (map f) d)) p.
Proof.
  unfold mshape, msub.
  induction 1; cbn [zip_with map]; constructor; auto using vshape_step.
Qed.

Lemma same_shape_step `{SA : SharedArithmetic} c p d :
  same_shape d p -> same_shape (sub p (scale c d)) p.
Proof.
  unfold same_shape, lshape; simpl.
  intuition auto using vshape_step, mshape_step.
Qed.

Lemma mshape_pointwise (f : Qc -> Qc) m : mshape (map (map f) m) m.
Proof.
  unfold mshape. induction m; cbn [map]; constructor; [|assumption].
  unfold vshape. apply length_map.
Qed.

Lemma same_shape_pointwise (f : Qc -> Qc) n : same_shape (pointwise f n) n.
Proof.
  unfold same_shape, lshape, vshape; simpl. rewrite !length_map.
  auto using mshape_pointwise.
Qed.

Lemma mshape_length a b : mshape a b -> length a = length b.
Proof. unfold mshape. apply Forall2_length. Qed.

Lemma mshape_rows (cols : nat) a b :
  mshape a b -> rows_of_width cols a = rows_of_width cols b.
Proof.
  unfold mshape, rows_of_width. induction 1 as [|u v a b Huv _ IH]; cbn [forallb]; auto.
  unfold vshape in Huv. now rewrite Huv, IH.
Qed.

Lemma lshape_ok (inputs : nat) a b : lshape a b -> linear_ok inputs a = linear_ok inputs b.
Proof.
  unfold lshape, linear_ok, out_features, vshape. intros [Hw Hb].
  now rewrite (mshape_rows _ _ _ Hw), (mshape_length _ _ Hw), Hb.
Qed.

(** The shapes decide whether a net is chained, and how many classes it
    tells apart. *)
Lemma same_shape_ok a b : same_shape a b -> net_ok a = net_ok b /\ classes a = classes b.
Proof.
  unfold same_shape, net_ok, classes, out_features. intros (H1 & H2 & H3).
  pose proof (mshape_length _ _ (proj1 H1)) as E1.
  pose proof (mshape_length _ _ (proj1 H2)) as E2.
  pose proof (mshape_length _ _ (proj1 H3)) as E3.
  unfold out_features in *.
  rewrite (lshape_ok _ _ _ H1), E1, (lshape_ok _ _ _ H2), E2, (lshape_ok _ _ _ H3).
  auto.
Qed.

End Shapes.

(** ** Lemmas on runs *)

Lemma events_since_app (w w' : World) (evs : list Event) :
  trace w' = trace w ++ evs -> events_since w w' = evs.
Proof.
  unfold events_since. intros ->.
  rewrite skipn_app, skipn_all, Nat.sub_diag. reflexivity.
Qed.

Lemma for_each_cons {A} (x : A) (l : list A) (body : A -> Py unit) (w : World) :
  for_each (x :: l) body w =
    match body x w with
    | (inl _, w') => for_each l body w'
    | (inr e, w') => (inr e, w')
    end.
Proof. reflexivity. Qed.

Lemma filter_yield_marks (evs : list Event) :
  filter is_yield evs = filter is_yield (filter is_mark evs).
Proof.
  induction evs as [|e evs IH]; auto.
  destruct e; cbn; try rewrite IH; auto.
Qed.

Lemma filter_step_marks (evs : list Event) :
  filter is_step evs = filter is_step (filter is_mark evs).
Proof.
  induction evs as [|e evs IH]; auto.
  destruct e; cbn; try rewrite IH; auto.
Qed.

Lemma yields_of_marks (n : nat) :
  forall i0, length (filter is_yield (flat_map iteration_marks (seq i0 n))) = n.
Proof. induction n as [|n IH]; intros i0; cbn; [|rewrite IH]; reflexivity. Qed.

Lemma steps_of_marks (n : nat) :
  forall i0, length (filter is_step (flat_map iteration_marks (seq i0 n))) = n.
Proof. induction n as [|n IH]; intros i0; cbn; [|rewrite IH]; reflexivity. Qed.

Section TrainRuns.

Context `{SA : SharedArithmetic} `{AG : Autograd}.
Variables (a : Arguments) (len : nat) (optimizer : Optimizer) (epoch : Z).

(** One iteration of the loop of [train], statement by statement. *)
Lemma train_body_run (i : nat) (b : Batch) (w : World) :
train_body a len optimizer epoch (i, b) w =
  match batch_loss (params w) b with
  | None => (inr RuntimeError, world_refused w i)
  | Some loss =>
      if (log_interval a =? 0)%Z then
        (inr ZeroDivisionError, world_after optimizer w b (body_events w i))
      else if (Z.of_nat i mod log_interval a =? 0)%Z then
        (inl tt, world_after optimizer w b (body_events w i ++ log_events a len epoch i loss))
      else (inl tt, world_after optimizer w b (body_events w i))
  end.
Proof.
destruct b as [data target], w as [p g tr ge t].
unfold train_body, world_after, world_refused, zeroed, body_events, log_events, grads_after,
  batch_loss, optimizer_zero_grad, model_call, loss_backward, optimizer_step, py_mod,
  get_float_precision, item, print, checked, bind, emit, read, ret, raise,
  set_grads, set_params.
cbn [params grads training grad_enabled trace fst snd].
destruct g as [g|]; cbn [params grads training grad_enabled trace fst snd];
  (destruct (forward p data) as [output|];
   cbn [params grads training grad_enabled trace fst snd and_then];
   [destruct (loss_of output target) as [loss|];
    cbn [params grads training grad_enabled trace fst snd];
    [destruct (log_interval a =? 0)%Z;
     cbn [params grads training grad_enabled trace fst snd];
     try destruct (Z.of_nat i mod log_interval a =? 0)%Z;
     cbn [params grads training grad_enabled trace fst snd]|]|]);
  repeat rewrite <- app_assoc; reflexivity.
Qed.

Lemma grads_after_ok (w : World) (b : Batch) :
  grads_ok w -> grads_after w b = autograd (params w) (fst b) (snd b).
Proof.
  unfold grads_ok, grads_after. destruct (grads w) as [g|]; auto.
  intros Hg. apply add_zeros_like.
  eapply same_shape_trans; [exact Hg|].
  apply same_shape_sym, autograd_shape.
Qed.

Lemma world_after_ok (w : World) (b : Batch) (evs : list Event) :
  grads_ok w -> grads_ok (world_after optimizer w b evs).
Proof.
  intros Hg. unfold grads_ok, world_after; cbn [grads params].
  rewrite (grads_after_ok w b Hg).
  eapply same_shape_trans; [apply autograd_shape|].
  apply same_shape_sym, same_shape_step, autograd_shape.
Qed.

Lemma world_refused_ok (w : World) (i : nat) : grads_ok w -> grads_ok (world_refused w i).
Proof.
  unfold grads_ok, world_refused, zeroed; cbn [grads params].
  destruct (grads w) as [g|]; auto.
  intros Hg. eapply same_shape_trans; [apply same_shape_zeros_like | exact Hg].
Qed.

Lemma world_after_params (w : World) (b : Batch) (evs : list Event) :
  grads_ok w ->
  params (world_after optimizer w b evs) = sgd_update (opt_lr optimizer) (params w) b.
Proof.
  intros Hg. unfold world_after, sgd_update; cbn [params].
  now rewrite (grads_after_ok w b Hg).
Qed.

Lemma sgd_update_shape (rate : Qc) (p : Net) (b : Batch) :
  Params.same_shape (sgd_update rate p b) p.
Proof. unfold sgd_update. apply same_shape_step, autograd_shape. Qed.

(** The loop of [train] adds to the trace. *)
Lemma train_loop_extends (l : Loader) :
  forall (i0 : nat) (w : World) r w',
    for_each (DataLoader.enumerate_from i0 l) (train_body a len optimizer epoch) w = (r, w') ->
    exists evs, trace w' = trace w ++ evs.
Proof.
  induction l as [|b l IH]; intros i0 w r w' Hrun.
  - cbn in Hrun. injection Hrun as <- <-. exists []. now rewrite app_nil_r.
  - cbn [DataLoader.enumerate_from] in Hrun.
    rewrite for_each_cons, train_body_run in Hrun.
    destruct (batch_loss (params w) b) as [loss|];
      [destruct (log_interval a =? 0)%Z;
       [|destruct (Z.of_nat i0 mod log_interval a =? 0)%Z]|];
      try (injection Hrun as <- <-; eexists; reflexivity);
      apply IH in Hrun; destruct Hrun as (evs & ->);
      cbn [world_after trace]; rewrite <- app_assoc; eexists; reflexivity.
Qed.

(** What the loop of [train] leaves in the trace, whatever its outcome.
    [l] is the part of the loader [trl] that starts at the index [i0]. *)
Lemma train_loop_trace (trl : Loader) (tel : TestLoader) (l : Loader) :
  forall (i0 : nat) (w : World) r w',
    (forall j b, nth_error l j = Some b -> nth_error trl (i0 + j) = Some b) ->
    for_each (DataLoader.enumerate_from i0 l) (train_body a len optimizer epoch) w = (r, w') ->
    exists evs,
      trace w' = trace w ++ evs
      /\ training w' = training w
      /\ grad_enabled w' = grad_enabled w
      /\ (length (filter is_step evs) <= length (filter is_yield evs)
          <= S (length (filter is_step evs)))%nat
      /\ Forall (disclosure_ok a trl tel) evs
      /\ (r = inl tt -> filter is_mark evs = flat_map iteration_marks (seq i0 (length l)))
      /\ (grads_ok w -> grads_ok w').
Proof.
  induction l as [|b l IH]; intros i0 w r w' Hnth Hrun.
  - cbn in Hrun. injection Hrun as <- <-. exists []. rewrite app_nil_r.
    repeat split; auto; cbn; lia.
  - cbn [DataLoader.enumerate_from] in Hrun.
    rewrite for_each_cons, train_body_run in Hrun.
    assert (Hb : nth_error trl i0 = Some b).
    { specialize (Hnth 0%nat b eq_refl). now rewrite Nat.add_0_r in Hnth. }
    assert (Hnth' : forall j b', nth_error l j = Some b' -> nth_error trl (S i0 + j) = Some b').
    { intros j b' Hj. specialize (Hnth (S j) b' Hj).
      now replace (S i0 + j)%nat with (i0 + S j)%nat by lia. }
    destruct (batch_loss (params w) b) as [loss|] eqn:Hloss.
    + destruct (log_interval a =? 0)%Z eqn:EL.
      * injection Hrun as <- <-. exists (body_events w i0).
        split; [reflexivity|]. split; [reflexivity|]. split; [reflexivity|].
        split; [cbn; lia|]. split; [repeat constructor|].
        split; [discriminate | apply world_after_ok].
      * apply Z.eqb_neq in EL.
        destruct (Z.of_nat i0 mod log_interval a =? 0)%Z eqn:EM;
          apply (IH (S i0)) in Hrun; auto;
          destruct Hrun as (evs & Htr & Ht & Hg & Hc & Hd & Hm & Hok);
          cbn [world_after trace training grad_enabled] in Htr, Ht, Hg.
        -- exists ((body_events w i0 ++ log_events a len epoch i0 loss) ++ evs).
           split; [rewrite Htr; symmetry; apply app_assoc|].
           split; [assumption|]. split; [assumption|].
           split; [rewrite !filter_app, !length_app; cbn; lia|].
           split; [|split].
           ++ apply Forall_app; split; [|exact Hd].
              apply Z.eqb_eq in EM.
              apply Forall_app; split; repeat constructor; cbn; auto.
              exists b, (params w), loss. auto.
           ++ intros Hr. rewrite !filter_app, (Hm Hr). reflexivity.
           ++ intros Hw. apply Hok, world_after_ok, Hw.
        -- exists (body_events w i0 ++ evs).
           split; [rewrite Htr; symmetry; apply app_assoc|].
           split; [assumption|]. split; [assumption|].
           split; [rewrite !filter_app, !length_app; cbn; lia|].
           split; [|split].
           ++ apply Forall_app; split; [repeat constructor | exact Hd].
           ++ intros Hr. rewrite !filter_app, (Hm Hr). reflexivity.
           ++ intros Hw. apply Hok, world_after_ok, Hw.
    + injection Hrun as <- <-.
      exists [EvYield i0; EvZeroGrad; EvForward (grad_enabled w)].
      split; [reflexivity|]. split; [reflexivity|]. split; [reflexivity|].
      split; [cbn; lia|]. split; [repeat constructor|].
      split; [discriminate | apply world_refused_ok].
Qed.

(** What the loop of [train] does when [log_interval] is not zero and the
    batches fit the net: it runs to its end, with one step of gradient
    descent per batch, each from the gradient of its own batch. *)
Lemma train_loop_params (l : Loader) :
  log_interval a <> 0%Z ->
  forall (i0 : nat) (w : World) r w',
    grads_ok w ->
    net_ok (params w) = true ->
    forallb (batch_ok (classes (params w))) l = true ->
    for_each (DataLoader.enumerate_from i0 l) (train_body a len optimizer epoch) w = (r, w') ->
    r = inl tt
    /\ params w' = fold_left (sgd_update (opt_lr optimizer)) l (params w)
    /\ grads_ok w'
    /\ grads w' = buffers_after (opt_lr optimizer) l (params w) (grads w)
    /\ Params.same_shape (params w') (params w).
Proof.
  intros EL. apply Z.eqb_neq in EL.
  induction l as [|b l IH]; intros i0 w r w' Hg Hp Hl Hrun.
  - cbn in Hrun. injection Hrun as <- <-. auto using same_shape_refl.
  - cbn [DataLoader.enumerate_from] in Hrun.
    cbn [forallb] in Hl. apply andb_true_iff in Hl. destruct Hl as [Hb Hl].
    rewrite for_each_cons, train_body_run, EL in Hrun.
    destruct (batch_loss_run (params w) b Hp Hb) as (output & _ & _ & _ & _ & Hloss).
    rewrite Hloss in Hrun.
    cbn [fold_left buffers_after].
    pose proof (sgd_update_shape (opt_lr optimizer) (params w) b) as Hshape.
    destruct (same_shape_ok _ _ Hshape) as [Hnet Hcls].
    destruct (Z.of_nat i0 mod log_interval a =? 0)%Z;
      apply IH in Hrun;
      try (apply world_after_ok; assumption);
      try (rewrite world_after_params by assumption; congruence);
      rewrite world_after_params in Hrun by assumption;
      cbn [world_after grads] in Hrun;
      rewrite grads_after_ok in Hrun by assumption;
      destruct Hrun as (Hr & Hpar & Hok & Hbuf & Hsh);
      repeat split; auto;
      eapply same_shape_trans; eassumption.
Qed.

End TrainRuns.

Section TestRuns.

Context `{SA : SharedArithmetic}.
Variable a : Arguments.

Lemma correct_total_cons (p : Net) (b : TestBatch) (l : TestLoader) (n : Qc) :
  batch_correct p b = Some n -> correct_total p (b :: l) = n + correct_total p l.
Proof. unfold correct_total. cbn [map]. intros ->. reflexivity. Qed.

Lemma test_count_tensor (p : Net) (l : TestLoader) :
  forall (y : Qc) (c : Correct),
    test_count p l (CTensor y) = Some c -> c = CTensor (y + correct_total p l).
Proof.
  induction l as [|b l IH]; intros y c E; cbn [test_count] in E.
  - injection E as <-. unfold correct_total. cbn. now rewrite Qcplus_0_r.
  - destruct (batch_correct p b) as [n|] eqn:Hb; [|discriminate].
    cbn [correct_iadd] in E. apply IH in E. subst c.
    rewrite (correct_total_cons p b l n Hb). f_equal. ring.
Qed.

(** When the loop of [test] runs to its end, [correct] is still the
    integer 0 on an empty loader, and the count over the loader
    otherwise. *)
Lemma test_count_total (p : Net) (l : TestLoader) (c : Correct) :
  test_count p l (CInt 0) = Some c ->
  match l with
  | [] => c = CInt 0
  | _ => c = CTensor (correct_total p l)
  end.
Proof.
  destruct l as [|b l]; cbn [test_count]; [congruence|].
  destruct (batch_correct p b) as [n|] eqn:Hb; [|discriminate].
  cbn [correct_iadd]. intros E. apply test_count_tensor in E. subst c.
  rewrite (correct_total_cons p b l n Hb). f_equal.
  change (of_Z 0) with (Q2Qc 0). ring.
Qed.

(** The loop of [test] under [no_grad]: a forward pass per batch, nothing
    else, up to the first batch that is refused. *)
Lemma test_loop_run (l : TestLoader) :
  forall (c : Correct) (w : World),
    grad_enabled w = false ->
    test_loop l c w =
      (match test_count (params w) l c with
       | Some c' => inl c'
       | None => inr RuntimeError
       end,
       {| params := params w; grads := grads w; training := training w;
          grad_enabled := false;
          trace := trace w ++ repeat (EvForward false) (test_forwards (params w) l) |}).
Proof.
  induction l as [|[data target] l IH]; intros c w Hg.
  - cbn. rewrite app_nil_r. destruct w; cbn in *; subst; reflexivity.
  - cbn [test_loop test_count test_forwards]. unfold batch_correct. cbn [fst snd].
    unfold bind at 1, model_call.
    unfold bind at 1, read. unfold bind at 1, emit. unfold bind at 1, checked.
    rewrite Hg. cbn [params grads training grad_enabled trace].
    destruct (forward (params w) data) as [output|]; cbn [and_then];
      [|unfold raise; reflexivity].
    unfold ret. unfold bind at 1.
    destruct (argmax output) as [pred|]; cbn [and_then]; [|unfold raise; reflexivity].
    unfold ret. unfold bind at 1.
    destruct (eq_sum pred target) as [n|]; [|unfold raise; reflexivity].
    unfold ret. rewrite IH by reflexivity.
    cbn [params grads training grad_enabled trace repeat].
    rewrite <- app_assoc. reflexivity.
Qed.

(** [test], statement by statement. *)
Lemma test_run (l : TestLoader) (w : World) :
  test a l w = (test_outcome a (params w) l, world_after_test a l w).
Proof.
  unfold test, world_after_test, test_events, test_outcome.
  unfold bind at 1, emit. unfold bind at 1, model_eval, bind at 1, emit, set_training.
  cbn [params grads training grad_enabled trace].
  unfold bind at 1, with_no_grad, bind at 1, set_grad_enabled.
  cbn [params grads training grad_enabled trace].
  rewrite test_loop_run by reflexivity.
  cbn [params grads training grad_enabled trace snd].
  destruct (test_count (params w) l (CInt 0)) as [[z|x]|].
  - cbn. rewrite app_nil_r, <- !app_assoc. reflexivity.
  - unfold bind, get_float_precision, item, print, bind, emit, ret, raise.
    cbn [params grads training grad_enabled trace].
    destruct (Z.of_nat (length l) * test_batch_size a =? 0)%Z;
      cbn [params grads training grad_enabled trace];
      repeat rewrite <- app_assoc; reflexivity.
  - cbn. rewrite app_nil_r, <- !app_assoc. reflexivity.
Qed.

(** On batches that fit the net the loop of [test] runs to its end. *)
Lemma test_count_run (p : Net) (l : TestLoader) :
  net_ok p = true ->
  (1 <= classes p)%nat ->
  forallb test_batch_ok l = true ->
  forall c, exists c', test_count p l c = Some c' /\ test_forwards p l = length l.
Proof.
  intros Hp Hc. induction l as [|b l IH]; intros Hl c; cbn [test_count test_forwards length].
  - eauto.
  - cbn [forallb] in Hl. apply andb_true_iff in Hl. destruct Hl as [Hb Hl].
    rewrite (batch_correct_run p b Hp Hc Hb).
    destruct (IH Hl (correct_iadd c (of_nat (batch_hits p b)))) as (c' & -> & ->). eauto.
Qed.

(** The count over a loader is the number of correct predictions. *)
Lemma correct_total_hits (p : Net) (l : TestLoader) :
  (forall b, In b l -> batch_correct p b <> None) ->
  correct_total p l = of_nat (correct_predictions p l).
Proof.
  unfold correct_total, correct_predictions.
  induction l as [|b l IH]; intros H; cbn [map vsum fold_right list_sum]; [reflexivity|].
  fold (vsum (map (fun b => match batch_correct p b with Some c => c | None => 0 end) l)).
  rewrite IH by (intros b' Hin; apply H; now right).
  rewrite of_nat_plus. f_equal.
  destruct (batch_correct p b) as [n|] eqn:Hb.
  - now apply batch_correct_hits.
  - exfalso. apply (H b); [now left | assumption].
Qed.

Lemma test_count_accepts (p : Net) (l : TestLoader) :
  forall c c', test_count p l c = Some c' -> forall b, In b l -> batch_correct p b <> None.
Proof.
  induction l as [|b l IH]; intros c c' E b' Hin; [contradiction|].
  cbn [test_count] in E. destruct (batch_correct p b) as [n|] eqn:Hb; [|discriminate].
  destruct Hin as [<-|Hin]; [congruence|]. eapply IH; eassumption.
Qed.

(** How [test] ends on batches that fit the net. *)
Lemma test_outcome_ok (p : Net) (l : TestLoader) :
  net_ok p = true ->
  (1 <= classes p)%nat ->
  forallb test_batch_ok l = true ->
  l <> [] ->
  test_batch_size a <> 0%Z ->
  test_outcome a p l = inl tt
  /\ test_count p l (CInt 0) = Some (CTensor (correct_total p l))
  /\ test_forwards p l = length l.
Proof.
  intros Hp Hc Hl Hne Htbs. unfold test_outcome.
  destruct (test_count_run p l Hp Hc Hl (CInt 0)) as (c & Hcount & Hf).
  rewrite Hcount. pose proof (test_count_total p l c Hcount) as Hc'.
  destruct l as [|b l]; [contradiction|]. subst c.
  destruct (Z.eqb_spec (Z.of_nat (length (b :: l)) * test_batch_size a) 0) as [E|E]; auto.
  cbn [length] in E. lia.
Qed.

End TestRuns.

Section EpochRuns.

Context `{SA : SharedArithmetic} `{AG : Autograd}.
Variables (a : Arguments) (private_train_loader : Loader)
          (private_test_loader : TestLoader) (optimizer : Optimizer).

Lemma train_unfold (epoch : Z) (w : World) :
  train a private_train_loader optimizer epoch w =
    for_each (DataLoader.enumerate private_train_loader)
             (train_body a (length private_train_loader) optimizer epoch)
             (train_entered epoch w).
Proof.
  unfold train, train_entered, model_train.
  unfold bind at 1, emit. unfold bind at 1, bind at 1, set_training.
  cbn [params grads training grad_enabled trace].
  rewrite <- app_assoc. reflexivity.
Qed.

Lemma test_events_ok (p : Net) :
  Forall (disclosure_ok a private_train_loader private_test_loader)
         (test_events a p private_test_loader).
Proof.
  unfold test_events. apply Forall_app; split.
  - repeat constructor.
  - apply Forall_app; split.
    + apply Forall_forall. intros e He. apply repeat_spec in He. subst e. exact I.
    + destruct (test_count p private_test_loader (CInt 0)) as [[z|x]|] eqn:Hc;
        try constructor.
      * pose proof (test_count_accepts _ _ _ _ Hc) as Hacc.
        apply test_count_total in Hc.
        destruct private_test_loader as [|b l]; [discriminate|].
        injection Hc as ->. unfold disclosure_ok. exists p. split; [reflexivity|].
        now apply correct_total_hits.
      * destruct (Z.of_nat (length private_test_loader) * test_batch_size a =? 0)%Z;
          repeat constructor.
Qed.

Lemma filter_repeat_forward (f : Event -> bool) (n : nat) :
  f (EvForward false) = false -> filter f (repeat (EvForward false) n) = [].
Proof.
  intros Hf. induction n as [|n IH]; cbn [repeat filter]; auto. now rewrite Hf.
Qed.

Lemma test_events_marks (p : Net) :
  filter is_mark (test_events a p private_test_loader) = [EvEnter FnTest].
Proof.
  unfold test_events. rewrite !filter_app, filter_repeat_forward by reflexivity.
  destruct (test_count p private_test_loader (CInt 0)) as [[z|x]|]; try reflexivity.
  destruct (Z.of_nat (length private_test_loader) * test_batch_size a =? 0)%Z; reflexivity.
Qed.

(** One turn of the epoch loop, whatever its outcome: [train], then
    [test]. *)
Lemma epoch_body_run (epoch : Z) (w : World) r w' :
  (train a private_train_loader optimizer epoch ;; test a private_test_loader) w = (r, w') ->
  exists evs,
    trace w' = trace w ++ evs
    /\ Forall (disclosure_ok a private_train_loader private_test_loader) evs
    /\ (grads_ok w -> grads_ok w')
    /\ (r = inl tt ->
        filter is_mark evs = epoch_marks (length private_train_loader) epoch).
Proof.
  unfold bind. rewrite train_unfold.
  destruct (for_each _ _ (train_entered epoch w)) as [r1 w1] eqn:Htrain.
  apply (train_loop_trace a _ optimizer epoch private_train_loader private_test_loader)
    in Htrain; [|intros j b Hj; exact Hj].
  destruct Htrain as (evs & Htr & _ & _ & _ & Hd & Hm & Hok).
  cbn [train_entered trace] in Htr.
  destruct r1 as [[]|e].
  - rewrite test_run. intros Hrun. injection Hrun as <- <-.
    exists ([EvEnter (FnTrain epoch); EvSetMode true] ++ evs
            ++ test_events a (params w1) private_test_loader).
    cbn [world_after_test trace]. split; [rewrite Htr, <- !app_assoc; reflexivity|].
    split; [|split].
    + apply Forall_app; split; [repeat constructor|].
      apply Forall_app; split; [exact Hd | apply test_events_ok].
    + intros Hg. apply Hok. exact Hg.
    + intros _. rewrite !filter_app, (Hm eq_refl), test_events_marks. reflexivity.
  - intros Hrun. injection Hrun as <- <-.
    exists ([EvEnter (FnTrain epoch); EvSetMode true] ++ evs).
    split; [rewrite Htr, <- !app_assoc; reflexivity|].
    split; [|split].
    + apply Forall_app; split; [repeat constructor | exact Hd].
    + intros Hg. apply Hok. exact Hg.
    + discriminate.
Qed.

(** The epoch loop over any list of epochs, whatever its outcome. *)
Lemma epoch_loop_run (es : list Z) :
  forall (w : World) r w',
    for_each es (fun epoch => train a private_train_loader optimizer epoch ;;
                              test a private_test_loader) w = (r, w') ->
    exists evs,
      trace w' = trace w ++ evs
      /\ Forall (disclosure_ok a private_train_loader private_test_loader) evs
      /\ (r = inl tt ->
          filter is_mark evs = flat_map (epoch_marks (length private_train_loader)) es).
Proof.
  induction es as [|epoch es IH]; intros w r w' Hrun.
  - cbn in Hrun. injection Hrun as <- <-. exists []. rewrite app_nil_r.
    repeat split; auto.
  - rewrite for_each_cons in Hrun.
    destruct ((train a private_train_loader optimizer epoch ;; test a private_test_loader) w)
      as [r1 w1] eqn:Hbody.
    apply epoch_body_run in Hbody.
    destruct Hbody as (evs1 & Htr1 & Hd1 & _ & Hm1).
    destruct r1 as [[]|e].
    + apply IH in Hrun. destruct Hrun as (evs2 & Htr2 & Hd2 & Hm2).
      exists (evs1 ++ evs2).
      split; [rewrite Htr2, Htr1; symmetry; apply app_assoc|].
      split; [apply Forall_app; auto|].
      intros Hr. rewrite filter_app, (Hm1 eq_refl), (Hm2 Hr). reflexivity.
    + injection Hrun as <- <-. exists evs1.
      split; [assumption|]. split; [assumption|]. discriminate.
Qed.

(** One turn of the epoch loop on inputs that fit: it runs to its end. *)
Lemma epoch_body_state (epoch : Z) (w : World) r w' :
  log_interval a <> 0%Z ->
  private_test_loader <> [] ->
  test_batch_size a <> 0%Z ->
  (1 <= classes (params w))%nat ->
  forallb (batch_ok (classes (params w))) private_train_loader = true ->
  forallb test_batch_ok private_test_loader = true ->
  grads_ok w ->
  net_ok (params w) = true ->
  (train a private_train_loader optimizer epoch ;; test a private_test_loader) w = (r, w') ->
  r = inl tt
  /\ params w' = fold_left (sgd_update (opt_lr optimizer)) private_train_loader (params w)
  /\ grads_ok w'
  /\ Params.same_shape (params w') (params w)
  /\ grad_enabled w' = grad_enabled w
  /\ training w' = false.
Proof.
  intros EL Hne Htbs Hc Htrl Htel Hg Hp. unfold bind. rewrite train_unfold.
  destruct (for_each _ _ (train_entered epoch w)) as [r1 w1] eqn:Htrain.
  pose proof Htrain as Htr.
  apply (train_loop_trace a _ optimizer epoch private_train_loader private_test_loader)
    in Htr; [|intros j b Hj; exact Hj].
  destruct Htr as (evs & _ & _ & Hge & _).
  eapply train_loop_params in Htrain; eauto.
  destruct Htrain as (-> & Hpar & Hok & _ & Hsh).
  cbn [train_entered params] in Hpar, Hsh.
  destruct (same_shape_ok _ _ Hsh) as [Hnet Hcls].
  rewrite test_run. intros E. injection E as <- <-.
  cbn [world_after_test params grads grad_enabled training].
  destruct (test_outcome_ok a (params w1) private_test_loader) as (Ho & _); auto;
    try congruence.
  split; [exact Ho|]. split; [exact Hpar|]. split; [exact Hok|].
  split; [exact Hsh|]. split; [exact Hge | reflexivity].
Qed.

(** The epoch loop on inputs that fit, on the state. *)
Lemma epoch_loop_state (es : list Z) :
  log_interval a <> 0%Z ->
  private_test_loader <> [] ->
  test_batch_size a <> 0%Z ->
  forallb test_batch_ok private_test_loader = true ->
  forall (w : World) r w',
    (1 <= classes (params w))%nat ->
    forallb (batch_ok (classes (params w))) private_train_loader = true ->
    grads_ok w ->
    net_ok (params w) = true ->
    for_each es (fun epoch => train a private_train_loader optimizer epoch ;;
                              test a private_test_loader) w = (r, w') ->
    r = inl tt
    /\ params w'
       = fold_left (sgd_update (opt_lr optimizer))
                   (concat (repeat private_train_loader (length es))) (params w)
    /\ grad_enabled w' = grad_enabled w
    /\ (es <> [] -> training w' = false).
Proof.
  intros EL Hne Htbs Htel. induction es as [|epoch es IH]; intros w r w' Hc Htrl Hg Hp Hrun.
  - cbn in Hrun. injection Hrun as <- <-. repeat split; auto. congruence.
  - rewrite for_each_cons in Hrun.
    destruct ((train a private_train_loader optimizer epoch ;; test a private_test_loader) w)
      as [r1 w1] eqn:Hbody.
    apply epoch_body_state in Hbody; auto.
    destruct Hbody as (-> & Hp1 & Hg1 & Hsh & Hge1 & Ht1).
    destruct (same_shape_ok _ _ Hsh) as [Hnet Hcls].
    pose proof Hrun as Hrun0.
    apply IH in Hrun; auto; try congruence.
    destruct Hrun as (Hr & Hpar & Hge & Ht).
    cbn [length repeat concat]. rewrite fold_left_app, <- Hp1.
    repeat split; auto; [congruence|].
    intros _. destruct es as [|e es']; [|apply Ht; discriminate].
    cbn in Hrun0. injection Hrun0 as _ <-. exact Ht1.
Qed.

End EpochRuns.

(** ** Small runs *)

(** One epoch over three batches, logging every second batch: the losses of
    the batches 0 and 2 are revealed, then the count of the evaluator. *)
Example one_epoch_reveals :
  let run := main (SA := truncating) (AG := toy_autograd) one_epoch_args small_weights_net
                  small_train_loader small_test_loader in
  fst run = inl tt
  /\ reveal_sites (trace (snd run)) = [TrainLog 0; TrainLog 2; TestCorrect]
  /\ filter is_mark (trace (snd run)) = epoch_marks 3 1.
Proof. vm_compute. repeat split; reflexivity. Qed.

(** Images of two pixels are refused by [view(-1, 28 * 28)]: the first
    iteration raises in the forward pass, after the batch was handed out and
    the gradients zeroed; no step is taken, nothing is revealed. *)
Example two_pixel_images_are_refused :
  let run := main (SA := truncating) (AG := toy_autograd) one_epoch_args toy_net
                  toy_train_loader toy_test_loader in
  fst run = inr RuntimeError
  /\ filter is_mark (trace (snd run)) = [EvEnter (FnTrain 1); EvYield 0; EvZeroGrad]
  /\ reveal_sites (trace (snd run)) = [].
Proof. vm_compute. repeat split; reflexivity. Qed.

(** With an empty test loader [correct] is still the integer 0 when it is
    asked for its value, and [test] raises. *)
Example empty_test_loader_raises :
  let run := test (SA := truncating) one_epoch_args [] (initial_world small_weights_net) in
  fst run = inr AttributeError
  /\ reveal_sites (trace (snd run)) = [].
Proof. vm_compute. repeat split; reflexivity. Qed.

(** The net of the small runs on a batch of two images, the loss of that
    output against the one-hot targets (two entries are off by a half:
    their squares add up to a half, over two images), and the count of
    the predictions. *)
Example small_forward :
  forward (SA := truncating) small_weights_net [image 1; image 0]
  = Some [1 :: Q2Qc (1 # 2) :: repeat 0 8; 0 :: Q2Qc (1 # 2) :: repeat 0 8].
Proof. vm_compute. reflexivity. Qed.

Example small_loss :
  batch_loss (SA := truncating) small_weights_net
             ([image 1; image 0], [one_hot 0; one_hot 1])
  = Some (Q2Qc (1 # 4)).
Proof. vm_compute. reflexivity. Qed.

Example small_count :
  batch_correct (SA := truncating) small_weights_net ([image 1; image 0], [0; 1])
  = Some (1 + 1).
Proof. vm_compute. reflexivity. Qed.

(** A target of one column is broadcast against the ten columns of the
    output; a target of three columns is refused. *)
Example loss_broadcasts :
  loss_of (SA := truncating) [[1; 1]] [[0]] = Some (1 + 1)
  /\ loss_of (SA := truncating) [[1; 1]] [[0; 0; 0]] = None.
Proof. vm_compute. split; reflexivity. Qed.

(** Three decimal digits are kept, the others cut towards zero. *)
Example fix_precision_truncates :
  fix_precision 3 (Q2Qc (28214867 # 10000000)) = Q2Qc (2821 # 1000)
  /\ fix_precision 3 (Q2Qc (-28214867 # 10000000)) = Q2Qc (-2821 # 1000)
  /\ fix_precision 3 1 = 1.
Proof. repeat split; reflexivity. Qed.

(** ** The secret-sharing notebook: properties of the loops *)

(** C1.  Disclosure boundary.  In every run of the epoch loop, whatever its
    outcome, a value is revealed in two places only: in [train], when the
    index of the batch is a multiple of [log_interval], and the value is the
    scalar loss of that batch of the train loader; in [test], and the value
    is the scalar count of the correct predictions over the test loader.
    No tensor of rank one or more is ever revealed. *)
Theorem disclosure_boundary `{SA : SharedArithmetic} `{AG : Autograd} (a : Arguments)
        (model : Net) (private_train_loader : Loader) (private_test_loader : TestLoader) :
  let w := snd (main a model private_train_loader private_test_loader) in
  Forall (disclosure_ok a private_train_loader private_test_loader) (trace w)
  /\ (forall site value, In (EvReveal site value) (trace w) -> rank value = 0%nat).
Proof.
  cbv zeta. unfold main, epoch_loop.
  destruct (for_each _ _ (initial_world (share_model model))) as [r w] eqn:Hrun.
  apply epoch_loop_run in Hrun. destruct Hrun as (evs & Htr & Hd & _).
  cbn [snd]. cbn [initial_world trace app] in Htr. rewrite Htr.
  split; [exact Hd|].
  intros site value Hin.
  rewrite Forall_forall in Hd. specialize (Hd _ Hin).
  destruct site; cbn in Hd.
  - destruct Hd as (_ & _ & b & p & loss & _ & _ & ->). reflexivity.
  - destruct Hd as (p & -> & _). reflexivity.
Qed.

(** C3.  In every call of [train] the batches are handed out one after the
    other and each is followed by one step of the optimizer before the next
    is handed out: the steps are as many as the batches handed out, but for
    the batch in hand when the call raises.  A call that returns has handed
    out the batches 0, 1, ..., n-1 of the loader once each, in order, each
    followed by one zeroing of the gradients, one backward pass and one
    step, so that the steps are as many as the batches of the loader.  The
    call returns when [log_interval] is not zero and the batches fit the
    net. *)
Theorem train_one_step_per_batch `{SA : SharedArithmetic} `{AG : Autograd} (a : Arguments)
        (private_train_loader : Loader) (optimizer : Optimizer) (epoch : Z) (w : World) :
  let run := train a private_train_loader optimizer epoch w in
  let evs := events_since w (snd run) in
  (length (filter is_step evs) <= length (filter is_yield evs)
   <= S (length (filter is_step evs)))%nat
  /\ (fst run = inl tt ->
      filter is_mark evs = EvEnter (FnTrain epoch) :: batch_marks (length private_train_loader)
      /\ length (filter is_yield evs) = length private_train_loader
      /\ length (filter is_step evs) = length private_train_loader)
  /\ (log_interval a <> 0%Z ->
      grads_ok w ->
      net_ok (params w) = true ->
      forallb (batch_ok (classes (params w))) private_train_loader = true ->
      fst run = inl tt).
Proof.
  cbv zeta. rewrite train_unfold.
  destruct (for_each _ _ (train_entered epoch w)) as [r w'] eqn:Hrun.
  pose proof Hrun as Htrace.
  apply (train_loop_trace a _ optimizer epoch private_train_loader []) in Htrace;
    [|intros j b Hj; exact Hj].
  destruct Htrace as (evs & Htr & _ & _ & Hc & _ & Hm & _).
  cbn [fst snd]. cbn [train_entered trace] in Htr.
  rewrite <- app_assoc in Htr. rewrite (events_since_app _ _ _ Htr).
  cbn [app filter is_step is_yield is_mark].
  split; [exact Hc|]. split.
  - intros Hr. specialize (Hm Hr). unfold batch_marks.
    split; [now rewrite Hm|].
    rewrite filter_yield_marks, filter_step_marks, Hm.
    split; [apply yields_of_marks | apply steps_of_marks].
  - intros EL Hg Hp Hl.
    eapply train_loop_params in Hrun; eauto. tauto.
Qed.

Lemma train_one_step_per_batch_witness :
  fst (train (SA := truncating) (AG := toy_autograd) args small_train_loader
             (notebook_optimizer args) 1 (initial_world small_weights_net)) = inl tt.
Proof.
  apply (train_one_step_per_batch (SA := truncating) (AG := toy_autograd) args
           small_train_loader (notebook_optimizer args) 1 (initial_world small_weights_net)).
  - discriminate.
  - exact I.
  - vm_compute. reflexivity.
  - vm_compute. reflexivity.
Defined.

Lemma py_range_1 (n : Z) : py_range 1 (n + 1) = map Z.of_nat (seq 1 (Z.to_nat n)).
Proof.
  unfold py_range. replace (n + 1 - 1)%Z with n by lia.
  rewrite <- seq_shift, map_map. apply map_ext. intros i. lia.
Qed.



(** C10.  Gradients do not accumulate across batches.  In a call of [train]
    over batches that fit the net, with [log_interval] not zero, whatever
    the gradient buffers hold on entry, the call returns, the gradients are
    zeroed before each backward pass, each step of the optimizer is
    therefore the step of gradient descent for the gradient of the current
    batch alone, and at the end the buffers hold the gradient of the last
    batch. *)
Theorem gradients_do_not_accumulate `{SA : SharedArithmetic} `{AG : Autograd} (a : Arguments)
        (private_train_loader : Loader) (optimizer : Optimizer) (epoch : Z) (w : World) :
  log_interval a <> 0%Z ->
  grads_ok w ->
  net_ok (params w) = true ->
  forallb (batch_ok (classes (params w))) private_train_loader = true ->
  let run := train a private_train_loader optimizer epoch w in
  let w' := snd run in
  fst run = inl tt
  /\ filter is_mark (events_since w w')
     = EvEnter (FnTrain epoch) :: flat_map iteration_marks (seq 0 (length private_train_loader))
  /\ params w' = fold_left (sgd_update (opt_lr optimizer)) private_train_loader (params w)
  /\ grads w' = buffers_after (opt_lr optimizer) private_train_loader (params w) (grads w).
Proof.
  intros EL Hg Hp Hl. cbv zeta. rewrite train_unfold.
  destruct (for_each _ _ (train_entered epoch w)) as [r w'] eqn:Hrun.
  pose proof Hrun as Htrace.
  apply (train_loop_trace a _ optimizer epoch private_train_loader []) in Htrace;
    [|intros j b Hj; exact Hj].
  destruct Htrace as (evs & Htr & _ & _ & _ & _ & Hm & _).
  eapply train_loop_params in Hrun; eauto.
  destruct Hrun as (-> & Hpar & _ & Hbuf & _).
  cbn [fst snd]. cbn [train_entered trace] in Htr.
  rewrite <- app_assoc in Htr. rewrite (events_since_app _ _ _ Htr).
  split; [reflexivity|].
  split; [cbn [app filter is_mark]; now rewrite (Hm eq_refl)|].
  split; [exact Hpar | exact Hbuf].
Qed.

Lemma gradients_do_not_accumulate_witness :
  params (snd (train (SA := truncating) (AG := toy_autograd) args small_train_loader
                     (notebook_optimizer args) 1 (initial_world small_weights_net)))
  = fold_left (sgd_update (SA := truncating) (AG := toy_autograd)
                          (opt_lr (notebook_optimizer args)))
              small_train_loader small_weights_net.
Proof.
  refine (proj1 (proj2 (proj2
    (gradients_do_not_accumulate (SA := truncating) (AG := toy_autograd) args
       small_train_loader (notebook_optimizer args) 1 (initial_world small_weights_net)
       _ _ _ _)))).
  - discriminate.
  - exact I.
  - vm_compute. reflexivity.
  - vm_compute. reflexivity.
Defined.




Lemma test_events_reveals `{SA : SharedArithmetic} (a : Arguments) (p : Net) (l : TestLoader) :
  filter is_reveal (test_events a p l)
  = match test_count p l (CInt 0) with
    | Some (CTensor x) => [EvReveal TestCorrect (Scalar x)]
    | _ => []
    end.
Proof.
  unfold test_events. rewrite !filter_app, filter_repeat_forward by reflexivity.
  cbn [filter is_reveal app].
  destruct (test_count p l (CInt 0)) as [[z|x]|]; try reflexivity.
  destruct (Z.of_nat (length l) * test_batch_size a =? 0)%Z; reflexivity.
Qed.



(** ** The private data loaders *)

(** An integer is on the grid of every precision: [fix_precision] leaves it
    as it is. *)
Lemma fix_precision_of_Z (p : nat) (z : Z) : fix_precision p (of_Z z) = of_Z z.
Proof.
  unfold fix_precision, of_Z. apply Qc_is_canon. cbn [this Q2Qc].
  rewrite (Qred_identity (inject_Z z)) by (cbn; apply Z.gcd_1_r).
  rewrite !Qred_correct. cbn [Qnum Qden inject_Z].
  rewrite Z.quot_1_r. unfold Qeq. cbn [Qnum Qden].
  assert (Hpos : (0 < 10 ^ Z.of_nat p)%Z) by (apply Z.pow_pos_nonneg; lia).
  rewrite Z2Pos.id by assumption. cbn [inject_Z Qnum Qden]. lia.
Qed.


Lemma fix_precision_0 (p : nat) : fix_precision p 0 = 0.
Proof. exact (fix_precision_of_Z p 0). Qed.

Lemma fix_precision_1 (p : nat) : fix_precision p 1 = 1.
Proof. exact (fix_precision_of_Z p 1). Qed.

Lemma secret_share_length (p : nat) (tensor : Matrix) :
  length (secret_share p tensor) = length tensor.
Proof. unfold secret_share. apply length_map. Qed.

Lemma secret_share_rows (p cols : nat) (tensor : Matrix) :
  rows_of_width cols (secret_share p tensor) = rows_of_width cols tensor.
Proof.
  unfold secret_share, rows_of_width. induction tensor as [|row m IH]; cbn [map forallb]; auto.
  now rewrite length_map, IH.
Qed.


Lemma one_hot_row_fixed (p label : nat) (r : Vector) :
  one_hot_row label = Some r -> map (fix_precision p) r = r.
Proof.
  unfold one_hot_row. destruct (label <? 10)%nat; [|discriminate].
  intros E.
  replace r with (map (fun j => if (j =? label)%nat then 1 else 0) (seq 0 10)) by congruence.
  rewrite map_map. apply map_ext. intros j.
  destruct (j =? label)%nat; [apply fix_precision_1 | apply fix_precision_0].
Qed.

(** A one-hot tensor is in fixed precision already. *)
Lemma secret_share_one_hot (p : nat) (labels : list nat) :
  forall m, one_hot_of labels = Some m -> secret_share p m = m.
Proof.
  unfold secret_share. induction labels as [|l labels IH]; intros m E; cbn [one_hot_of] in E.
  - injection E as <-. reflexivity.
  - destruct (one_hot_row l) as [r|] eqn:Er; [|discriminate].
    destruct (one_hot_of labels) as [m'|]; [|discriminate].
    injection E as <-. cbn [map]. rewrite (one_hot_row_fixed p l r Er), (IH m' eq_refl).
    reflexivity.
Qed.

Lemma private_train_batches_data (a : Arguments) (l : list (nat * list Example)) :
  forall trl,
    private_train_batches a l = Some trl ->
    map fst trl
    = map (fun ib => secret_share (precision_fractional a) (map fst (snd ib)))
          (filter (fun ib => index_lt_ratio (fst ib) n_train_items (batch_size a)) l).
Proof.
  induction l as [|[i b] l IH]; intros trl Htrl; cbn in Htrl.
  - injection Htrl as <-. reflexivity.
  - cbn [filter fst]. destruct (index_lt_ratio i n_train_items (batch_size a)).
    + destruct (one_hot_of (map snd b)) as [target|]; [|discriminate].
      destruct (private_train_batches a l) as [tl|]; [|discriminate].
      injection Htrl as <-. cbn [map fst snd]. f_equal. now apply IH.
    + now apply IH.
Qed.

(** Whatever the data set, when the two batch sizes agree (they are both 64
    in the notebook) the data tensors of the private test loader are the
    data tensors of the private train loader. *)
Lemma private_test_data_is_train_data (a : Arguments) (mnist : bool -> list Example)
      (private_train_loader : Loader) (private_test_loader : TestLoader) :
  batch_size a = test_batch_size a ->
  get_private_data_loaders a mnist = Some (private_train_loader, private_test_loader) ->
  map fst private_test_loader = map fst private_train_loader.
Proof.
  intros Hbs. unfold get_private_data_loaders. rewrite <- Hbs.
  destruct (DataLoader.batches (batch_size a) (mnist true)) as [loader|]; [|discriminate].
  destruct (private_train_batches a (DataLoader.enumerate loader)) as [trl|] eqn:Htrl;
    [|discriminate].
  intros Hsome. injection Hsome as <- <-.
  rewrite (private_train_batches_data _ _ _ Htrl).
  unfold private_test_batches. rewrite map_map, <- Hbs. reflexivity.
Qed.

(** The held-out part of the data set is never read. *)
Lemma held_out_split_is_unused (a : Arguments) (mnist mnist' : bool -> list Example) :
  mnist true = mnist' true ->
  get_private_data_loaders a mnist = get_private_data_loaders a mnist'.
Proof. unfold get_private_data_loaders. intros ->. reflexivity. Qed.

(** C9.  The private test loader is not held out: on a data set of two
    training items and one held-out item, with the hyper-parameters of the
    notebook, the evaluator is given the images of the two training items,
    the same data the training loop is given, and the held-out item is in no
    batch. *)
Theorem test_loader_is_training_data :
  exists private_train_loader private_test_loader,
    get_private_data_loaders args tiny_mnist = Some (private_train_loader, private_test_loader)
    /\ map fst private_test_loader = [map fst (tiny_mnist true)]
    /\ map fst private_train_loader = [map fst (tiny_mnist true)]
    /\ ~ In (map fst (tiny_mnist false)) (map fst private_test_loader).
Proof.
  eexists. eexists. split; [reflexivity|].
  split; [reflexivity|]. split; [reflexivity|].
  cbn. intros [E|[]]. discriminate E.
Qed.

(** ** Further properties: the data loaders *)

Lemma of_Z_mult (x y : Z) : of_Z (x * y) = of_Z x * of_Z y.
Proof.
  unfold of_Z, Qcmult. apply Q2Qc_eq_iff. cbn [this Q2Qc].
  rewrite !Qred_correct, inject_Z_mult. reflexivity.
Qed.

Lemma of_Z_lt (x y : Z) : of_Z x < of_Z y <-> (x < y)%Z.
Proof.
  unfold of_Z, Qclt. cbn [this Q2Qc]. rewrite !Qred_correct, <- Zlt_Qlt. reflexivity.
Qed.

Lemma of_Z_neq_0 (x : Z) : x <> 0%Z -> of_Z x <> 0.
Proof.
  intros Hx E. unfold of_Z in E. apply Q2Qc_eq_iff in E.
  unfold Qeq in E. cbn in E. lia.
Qed.

Lemma ceil_div_lt (x n b : Z) :
  (0 < b)%Z -> (x * b < n)%Z <-> (x < (n + b - 1) / b)%Z.
Proof.
  intros Hb. pose proof (Z.div_mod (n + b - 1) b ltac:(lia)) as Hdm.
  pose proof (Z.mod_pos_bound (n + b - 1) b Hb) as Hm.
  split; intros H; nia.
Qed.

(** The test of the list comprehensions, [i < n_items / batch] with the
    true division, keeps the indices below the quotient rounded up. *)
Lemma index_lt_ratio_spec (i : nat) (n_items batch : Z) :
  (0 < batch)%Z ->
  index_lt_ratio i n_items batch = (i <? kept_batches n_items batch)%nat.
Proof.
  intros Hb. unfold index_lt_ratio, kept_batches.
  assert (Hiff : of_nat i < of_Z n_items / of_Z batch <-> (Z.of_nat i * batch < n_items)%Z).
  { assert (Hb0 : of_Z batch <> 0) by (apply of_Z_neq_0; lia).
    assert (Hbpos : 0 < of_Z batch) by (change 0 with (of_Z 0); apply of_Z_lt; lia).
    rewrite <- of_Z_lt, of_Z_mult. fold (of_nat i). split; intros H.
    - apply (Qcmult_lt_compat_r _ _ _ Hbpos) in H.
      replace (of_Z n_items / of_Z batch * of_Z batch) with (of_Z n_items) in H
        by (field; assumption).
      exact H.
    - apply Qcnot_le_lt. intros Hle.
      apply (Qcmult_le_compat_r _ _ (of_Z batch)) in Hle; [|apply Qclt_le_weak; assumption].
      replace (of_Z n_items / of_Z batch * of_Z batch) with (of_Z n_items) in Hle
        by (field; assumption).
      apply Qcle_not_lt in Hle. contradiction. }
  rewrite (ceil_div_lt _ _ _ Hb) in Hiff.
  destruct (Nat.ltb_spec i (Z.to_nat ((n_items + batch - 1) / batch))) as [Hlt|Hge].
  - assert (H : of_nat i < of_Z n_items / of_Z batch) by (apply Hiff; lia).
    now rewrite (proj1 (Qclt_alt _ _) H).
  - destruct (of_nat i ?= of_Z n_items / of_Z batch) eqn:Hcmp; try reflexivity.
    apply (proj2 (Qclt_alt _ _)) in Hcmp. apply Hiff in Hcmp. lia.
Qed.

Lemma one_hot_row_spec (label : nat) (r : Vector) :
  one_hot_row label = Some r ->
  (label < 10)%nat /\ length r = 10%nat /\ vsum r = 1 /\ argmax_row r = label.
Proof.
  unfold one_hot_row. destruct (Nat.ltb_spec label 10) as [Hlt|Hge]; [|discriminate].
  intros E. injection E as <-. split; [assumption|].
  do 10 (destruct label as [|label]; [repeat split; reflexivity|]). lia.
Qed.

Lemma one_hot_of_rows (labels : list nat) :
  forall m, one_hot_of labels = Some m -> Forall2 (fun l r => one_hot_row l = Some r) labels m.
Proof.
  induction labels as [|l labels IH]; intros m E; cbn in E.
  - injection E as <-. constructor.
  - destruct (one_hot_row l) as [r|] eqn:Er; [|discriminate].
    destruct (one_hot_of labels) as [m'|]; [|discriminate].
    injection E as <-. constructor; auto.
Qed.

Lemma one_hot_of_labels_ok (labels : list nat) :
  Forall (fun label => (label < 10)%nat) labels -> one_hot_of labels <> None.
Proof.
  induction 1 as [|l labels Hl _ IH]; cbn [one_hot_of]; [discriminate|].
  unfold one_hot_row. apply Nat.ltb_lt in Hl. rewrite Hl.
  destruct (one_hot_of labels); [discriminate | congruence].
Qed.

(** X1.  [one_hot_of] is defined exactly on the labels of the ten classes:
    it fails as soon as one label is 10 or more. *)
Theorem one_hot_of_defined (index_tensor : list nat) :
  one_hot_of index_tensor <> None <-> Forall (fun label => (label < 10)%nat) index_tensor.
Proof.
  induction index_tensor as [|l labels IH]; cbn [one_hot_of].
  - split; [constructor | discriminate].
  - unfold one_hot_row. destruct (Nat.ltb_spec l 10) as [Hlt|Hge].
    + destruct (one_hot_of labels) as [m|].
      * split; [|discriminate]. intros _. constructor; [assumption|]. apply IH. discriminate.
      * split; [congruence|]. intros H. inversion H; subst. apply IH in H3. congruence.
    + split; [congruence|]. intros H. inversion H; subst. lia.
Qed.

(** X2.  The one-hot tensor has a row per label, ten entries to a row that
    sum to one, and [argmax] over the rows gives the labels back. *)
Theorem one_hot_of_round_trip (index_tensor : list nat) (onehot_tensor : Matrix) :
  one_hot_of index_tensor = Some onehot_tensor ->
  argmax_dim1 onehot_tensor = index_tensor
  /\ length onehot_tensor = length index_tensor
  /\ Forall (fun row => length row = 10%nat /\ vsum row = 1) onehot_tensor.
Proof.
  intros E. apply one_hot_of_rows in E.
  induction E as [|l r labels m Hr _ IH]; [repeat split; constructor|].
  destruct IH as (Harg & Hlen & Hrows).
  apply one_hot_row_spec in Hr. destruct Hr as (_ & Hl & Hs & Ha).
  cbn [argmax_dim1 map length]. unfold argmax_dim1 in Harg. rewrite Harg, Ha, Hlen.
  repeat split; auto.
Qed.

(** The example of the docstring of [one_hot_of]. *)
Lemma one_hot_of_round_trip_witness :
  one_hot_of [0; 3; 9]%nat
  = Some [[1; 0; 0; 0; 0; 0; 0; 0; 0; 0];
          [0; 0; 0; 1; 0; 0; 0; 0; 0; 0];
          [0; 0; 0; 0; 0; 0; 0; 0; 0; 1]]
  /\ argmax_dim1 [[1; 0; 0; 0; 0; 0; 0; 0; 0; 0];
                  [0; 0; 0; 1; 0; 0; 0; 0; 0; 0];
                  [0; 0; 0; 0; 0; 0; 0; 0; 0; 1]] = [0; 3; 9]%nat.
Proof.
  split; [reflexivity|].
  apply (one_hot_of_round_trip [0; 3; 9]%nat). reflexivity.
Defined.

Section PrivateLoaders.

Variables (a : Arguments) (mnist : bool -> list Example).

Lemma private_train_batches_items (l : list (nat * list Example)) :
  forall trl,
    private_train_batches a l = Some trl ->
    Forall2 (fun b batch => fst batch = secret_share (precision_fractional a) (map fst b)
                            /\ one_hot_of (map snd b) = Some (snd batch))
            (map snd (filter (fun ib => index_lt_ratio (fst ib) n_train_items (batch_size a)) l))
            trl.
Proof.
  induction l as [|[i b] l IH]; intros trl Htrl; cbn in Htrl.
  - injection Htrl as <-. constructor.
  - cbn [filter fst]. destruct (index_lt_ratio i n_train_items (batch_size a)).
    + destruct (one_hot_of (map snd b)) as [target|] eqn:Et; [|discriminate].
      destruct (private_train_batches a l) as [tl|]; [|discriminate].
      injection Htrl as <-. cbn [map snd]. constructor; auto.
      cbn [fst snd]. split; [reflexivity|].
      now rewrite (secret_share_one_hot _ _ _ Et).
    + now apply IH.
Qed.

Lemma private_train_batches_defined (l : list (list Example)) :
  Forall (Forall (fun e => (snd e < 10)%nat)) l ->
  forall i0, private_train_batches a (DataLoader.enumerate_from i0 l) <> None.
Proof.
  induction 1 as [|b l Hb _ IH]; intros i0; cbn [DataLoader.enumerate_from private_train_batches];
    [discriminate|].
  destruct (index_lt_ratio i0 n_train_items (batch_size a)); [|apply IH].
  assert (Hoh : one_hot_of (map snd b) <> None).
  { apply one_hot_of_labels_ok. clear -Hb. induction Hb; constructor; auto. }
  destruct (one_hot_of (map snd b)); [|congruence].
  specialize (IH (S i0)). destruct (private_train_batches a _); [discriminate | congruence].
Qed.

Lemma kept_filter (n_items batch : Z) (l : list (list Example)) :
  (0 < batch)%Z ->
  map snd (filter (fun ib => index_lt_ratio (fst ib) n_items batch) (DataLoader.enumerate l))
  = firstn (kept_batches n_items batch) l.
Proof.
  intros Hb. unfold DataLoader.enumerate.
  rewrite (filter_ext _ (fun ib => (fst ib <? kept_batches n_items batch)%nat)).
  - rewrite filter_enumerate_lt. now rewrite Nat.sub_0_r.
  - intros ib. now apply index_lt_ratio_spec.
Qed.

Lemma batches_some (n : Z) (items : list Example) (bs : list (list Example)) :
  DataLoader.batches n items = Some bs ->
  (0 < n)%Z /\ bs = DataLoader.batches_aux (length items) (Z.to_nat n) items.
Proof.
  unfold DataLoader.batches. destruct (Z.ltb_spec 0 n); [|discriminate].
  intros E. injection E as <-. auto.
Qed.



End PrivateLoaders.



(** With the sizes of the notebook the loaders keep ten batches of 64: the
    first 640 items. *)
Lemma notebook_sizes :
  kept_batches n_train_items (batch_size args) = 10%nat
  /\ (kept_batches n_train_items (batch_size args) * Z.to_nat (batch_size args) = 640)%nat
  /\ kept_batches n_test_items (test_batch_size args) = 10%nat.
Proof. repeat split; reflexivity. Qed.

(** X4.  The batches of the private loaders.  A batch of the train loader
    has one example at least and [batch_size] at most, a target row per
    example, and every target row is one-hot: ten entries that sum to one.
    A batch of the test loader has a label per example. *)
Theorem private_batches_well_formed (a : Arguments) (mnist : bool -> list Example)
        (private_train_loader : Loader) (private_test_loader : TestLoader) :
  get_private_data_loaders a mnist = Some (private_train_loader, private_test_loader) ->
  Forall (fun b => (1 <= length (fst b) <= Z.to_nat (batch_size a))%nat
                   /\ length (snd b) = length (fst b)
                   /\ Forall (fun row => length row = 10%nat /\ vsum row = 1) (snd b))
         private_train_loader
  /\ Forall (fun b => (1 <= length (fst b) <= Z.to_nat (test_batch_size a))%nat
                      /\ length (snd b) = length (fst b))
            private_test_loader.
Proof.
  unfold get_private_data_loaders.
  destruct (DataLoader.batches (batch_size a) (mnist true)) as [train_loader|] eqn:Hb;
    [|discriminate].
  destruct (private_train_batches a (DataLoader.enumerate train_loader)) as [trl|] eqn:Htrl;
    [|discriminate].
  destruct (DataLoader.batches (test_batch_size a) (mnist true)) as [test_loader|] eqn:Hb';
    [|discriminate].
  intros E. injection E as <- <-.
  apply batches_some in Hb, Hb'. destruct Hb as [Hpos ->], Hb' as [Hpos' ->].
  split.
  - apply private_train_batches_items in Htrl.
    assert (Hsrc : Forall (fun b : list Example => (1 <= length b <= Z.to_nat (batch_size a))%nat)
                     (map snd (filter (fun ib => index_lt_ratio (fst ib) n_train_items (batch_size a))
                                 (DataLoader.enumerate
                                    (DataLoader.batches_aux (length (mnist true))
                                       (Z.to_nat (batch_size a)) (mnist true)))))).
    { rewrite kept_filter by assumption. apply Forall_firstn_keep.
      apply batches_aux_bounds. lia. }
    induction Htrl as [|b batch bs trl [Hd Ht] _ IH]; [constructor|].
    inversion Hsrc; subst. constructor; [|apply IH; assumption].
    destruct batch as [data target]. cbn [fst snd] in *. subst data.
    pose proof (one_hot_of_rows _ _ Ht) as Hrows.
    assert (Hlen : length target = length b).
    { apply Forall2_length in Hrows. now rewrite length_map in Hrows. }
    rewrite secret_share_length, !length_map. split; [assumption|]. split; [exact Hlen|].
    clear -Hrows. induction Hrows as [|l r ls rs Hr _ IH]; constructor; auto.
    apply one_hot_row_spec in Hr. tauto.
  - unfold private_test_batches. apply Forall_map.
    assert (Hsrc : Forall (fun b : list Example =>
                             (1 <= length b <= Z.to_nat (test_batch_size a))%nat)
                     (map snd (filter (fun ib => index_lt_ratio (fst ib) n_test_items
                                                   (test_batch_size a))
                                 (DataLoader.enumerate
                                    (DataLoader.batches_aux (length (mnist true))
                                       (Z.to_nat (test_batch_size a)) (mnist true)))))).
    { rewrite kept_filter by assumption. apply Forall_firstn_keep.
      apply batches_aux_bounds. lia. }
    apply Forall_map in Hsrc. eapply Forall_impl; [|exact Hsrc].
    intros ib Hib. unfold secret_share, secret_share_labels, float_labels. cbn [fst snd].
    rewrite !length_map. auto.
Qed.

Lemma private_batches_well_formed_witness :
  Forall (fun b : Batch => (1 <= length (fst b) <= Z.to_nat (batch_size args))%nat
                   /\ length (snd b) = length (fst b)
                   /\ Forall (fun row => length row = 10%nat /\ vsum row = 1) (snd b))
         [([[1; 0]; [0; 1]], [[0; 0; 0; 1; 0; 0; 0; 0; 0; 0];
                               [0; 0; 0; 0; 0; 0; 0; 1; 0; 0]])].
Proof.
  apply (private_batches_well_formed args tiny_mnist
           [([[1; 0]; [0; 1]], [[0; 0; 0; 1; 0; 0; 0; 0; 0; 0];
                                 [0; 0; 0; 0; 0; 0; 0; 1; 0; 0]])]
           [([[1; 0]; [0; 1]], [1 + 1 + 1; 1 + 1 + 1 + 1 + 1 + 1 + 1])]).
  reflexivity.
Defined.

(** X5.  When the loaders are built.  On a data set whose training labels
    are all among the ten classes, [get_private_data_loaders] returns its
    loaders exactly when both batch sizes are positive. *)
Theorem private_loaders_defined (a : Arguments) (mnist : bool -> list Example) :
  Forall (fun e => (snd e < 10)%nat) (mnist true) ->
  get_private_data_loaders a mnist <> None
  <-> (0 < batch_size a)%Z /\ (0 < test_batch_size a)%Z.
Proof.
  intros Hlabels. unfold get_private_data_loaders, DataLoader.batches.
  destruct (Z.ltb_spec 0 (batch_size a)) as [Hpos|Hneg]; [|split; [congruence | lia]].
  assert (Htrain : private_train_batches a
                     (DataLoader.enumerate
                        (DataLoader.batches_aux (length (mnist true))
                           (Z.to_nat (batch_size a)) (mnist true))) <> None).
  { apply private_train_batches_defined. apply Forall_concat.
    rewrite batches_aux_concat; [assumption | lia | apply Nat.le_refl]. }
  destruct (private_train_batches a _) as [trl|]; [|congruence].
  destruct (Z.ltb_spec 0 (test_batch_size a)) as [Hpos'|Hneg'].
  - split; [auto | discriminate].
  - split; [congruence | lia].
Qed.

Lemma private_loaders_defined_witness :
  get_private_data_loaders args tiny_mnist <> None
  <-> (0 < batch_size args)%Z /\ (0 < test_batch_size args)%Z.
Proof.
  apply (private_loaders_defined args tiny_mnist).
  repeat constructor.
Defined.

(** ** Further properties: the model *)




Lemma forward_refuses_elements `{SA : SharedArithmetic} (n : Net) (x : Matrix) :
  view (28 * 28) x = None -> forward n x = None.
Proof. unfold forward. now intros ->. Qed.




Section LoaderShapes.

Variables (a : Arguments) (mnist : bool -> list Example).

Hypothesis images_have_784_pixels :
  Forall (fun e : Example => length (fst e) = (28 * 28)%nat) (mnist true).

Lemma kept_images (n_items batch : Z) :
  (0 < batch)%Z ->
  Forall (fun b : list Example =>
            b <> [] /\ Forall (fun e : Example => length (fst e) = (28 * 28)%nat) b)
         (map snd (filter (fun ib => index_lt_ratio (fst ib) n_items batch)
                     (DataLoader.enumerate
                        (DataLoader.batches_aux (length (mnist true))
                           (Z.to_nat batch) (mnist true))))).
Proof.
  intros Hpos. rewrite kept_filter by assumption. apply Forall_firstn_keep.
  assert (Hall : Forall (Forall (fun e : Example => length (fst e) = (28 * 28)%nat))
                   (DataLoader.batches_aux (length (mnist true)) (Z.to_nat batch) (mnist true))).
  { apply Forall_concat.
    rewrite batches_aux_concat; [assumption | lia | apply Nat.le_refl]. }
  pose proof (batches_aux_bounds (A := Example) (Z.to_nat batch) ltac:(lia)
                (length (mnist true)) (mnist true)) as Hbounds.
  revert Hall Hbounds.
  generalize (DataLoader.batches_aux (length (mnist true)) (Z.to_nat batch) (mnist true)).
  induction l as [|b l IH]; intros Hall Hbounds; [constructor|].
  inversion Hall; inversion Hbounds; subst. constructor; [|apply IH; assumption].
  split; [|assumption]. intros ->. cbn in *. lia.
Qed.

Lemma images_of_examples (p : nat) (b : list Example) :
  b <> [] ->
  Forall (fun e : Example => length (fst e) = (28 * 28)%nat) b ->
  images_ok (secret_share p (map fst b)) = true.
Proof.
  intros Hne Hb. apply images_ok_spec. split.
  - destruct b; [contradiction | discriminate].
  - rewrite secret_share_rows. apply rows_of_width_forall, Forall_map. exact Hb.
Qed.

(** The batches of the private loaders have the shapes [train] and [test]
    expect. *)
Lemma private_batches_fit (private_train_loader : Loader) (private_test_loader : TestLoader) :
  get_private_data_loaders a mnist = Some (private_train_loader, private_test_loader) ->
  forallb (batch_ok 10) private_train_loader = true
  /\ forallb test_batch_ok private_test_loader = true.
Proof.
  unfold get_private_data_loaders.
  destruct (DataLoader.batches (batch_size a) (mnist true)) as [train_loader|] eqn:Hb;
    [|discriminate].
  destruct (private_train_batches a (DataLoader.enumerate train_loader)) as [trl|] eqn:Htrl;
    [|discriminate].
  destruct (DataLoader.batches (test_batch_size a) (mnist true)) as [test_loader|] eqn:Hb';
    [|discriminate].
  intros E. injection E as <- <-.
  apply batches_some in Hb, Hb'. destruct Hb as [Hpos ->], Hb' as [Hpos' ->].
  split.
  - apply private_train_batches_items in Htrl.
    pose proof (kept_images n_train_items (batch_size a) Hpos) as Hsrc.
    apply forallb_forall. apply Forall_forall.
    induction Htrl as [|b batch bs trl [Hd Ht] _ IH]; [constructor|].
    inversion Hsrc as [|b' bs' [Hne Himg] Hrest]; subst.
    constructor; [|apply IH; assumption].
    destruct batch as [data target]. cbn [fst snd] in *. subst data.
    apply batch_ok_spec. cbn [fst snd].
    pose proof (one_hot_of_rows _ _ Ht) as Hrows.
    split; [now apply images_of_examples|]. split.
    + apply Forall2_length in Hrows. rewrite length_map in Hrows.
      now rewrite secret_share_length, length_map.
    + apply rows_of_width_forall.
      clear -Hrows. induction Hrows as [|l r ls rs Hr _ IH]; constructor; auto.
      apply one_hot_row_spec in Hr. tauto.
  - unfold private_test_batches. apply forallb_forall. intros tb Hin.
    apply in_map_iff in Hin. destruct Hin as (ib & <- & Hin).
    pose proof (kept_images n_test_items (test_batch_size a) Hpos') as Hsrc.
    rewrite Forall_forall in Hsrc.
    destruct (Hsrc (snd ib)) as [Hne Himg]; [now apply in_map|].
    apply test_batch_ok_spec. cbn [fst snd].
    split; [now apply images_of_examples|].
    unfold secret_share_labels, float_labels.
    now rewrite secret_share_length, !length_map.
Qed.

End LoaderShapes.

(** X8.  The batches of the private loaders fit the net.  When the images
    of the training split have 28 * 28 pixels, every batch of the train
    loader has images of 28 * 28 pixels and a target of ten columns with a
    row per image, and every batch of the test loader a label per image.
    For a net with ten classes whose layers are chained, the forward pass
    accepts every batch of the train loader, the output has a row for
    every row of the target, and the loss of [train] is the mean over the
    batch of the squared difference to the one-hot target. *)
Theorem loader_batches_fit_the_model `{SA : SharedArithmetic} (a : Arguments)
        (mnist : bool -> list Example)
        (private_train_loader : Loader) (private_test_loader : TestLoader) (p : Net) :
  Forall (fun e => length (fst e) = (28 * 28)%nat) (mnist true) ->
  get_private_data_loaders a mnist = Some (private_train_loader, private_test_loader) ->
  forallb (batch_ok 10) private_train_loader = true
  /\ forallb test_batch_ok private_test_loader = true
  /\ (net_ok p = true ->
      classes p = 10%nat ->
      Forall (fun b => exists output,
                  forward p (fst b) = Some output
                  /\ length (snd b) = length output
                  /\ loss_of output (snd b) = Some (mse_spec output (snd b)))
             private_train_loader).
Proof.
  intros Himages Hloaders.
  destruct (private_batches_fit a mnist Himages _ _ Hloaders) as [Htrl Htel].
  split; [exact Htrl|]. split; [exact Htel|].
  intros Hp Hc. apply Forall_forall. intros b Hin.
  rewrite forallb_forall in Htrl. specialize (Htrl b Hin). rewrite <- Hc in Htrl.
  destruct (batch_loss_run p b Hp Htrl) as (output & Hf & Hlen & _ & Hloss & _).
  exists output. split; [exact Hf|]. split; [|exact Hloss].
  apply batch_ok_spec in Htrl. destruct Htrl as (_ & Ht & _).
  etransitivity; [exact Ht | symmetry; exact Hlen].
Qed.

Lemma loader_batches_fit_the_model_witness :
  forallb (batch_ok 10) blank_train_loader = true
  /\ forallb test_batch_ok blank_test_loader = true.
Proof.
  destruct (loader_batches_fit_the_model (SA := truncating) args blank_mnist
              blank_train_loader blank_test_loader small_weights_net)
    as (Htrl & Htel & _).
  - repeat constructor.
  - reflexivity.
  - split; [exact Htrl | exact Htel].
Defined.

(** ** Further properties: the runs *)

Lemma reveal_sites_app (u v : list Event) :
  reveal_sites (u ++ v) = reveal_sites u ++ reveal_sites v.
Proof. unfold reveal_sites. apply flat_map_app. Qed.

Lemma reveal_sites_forward (n : nat) : reveal_sites (repeat (EvForward false) n) = [].
Proof. induction n as [|n IH]; cbn; auto. Qed.

Lemma reveal_sites_filter (evs : list Event) :
  reveal_sites (filter is_reveal evs) = reveal_sites evs.
Proof.
  induction evs as [|e evs IH]; [reflexivity|].
  destruct e; cbn [filter is_reveal]; try exact IH.
  change (reveal_sites (EvReveal site value :: ?x)) with (site :: reveal_sites x).
  unfold reveal_sites in *. cbn [flat_map app]. now rewrite IH.
Qed.

Lemma share_model_ok (model : Net) :
  net_ok (share_model model) = net_ok model /\ classes (share_model model) = classes model.
Proof. apply same_shape_ok. unfold share_model. apply same_shape_pointwise. Qed.

Section FurtherRuns.

Context `{SA : SharedArithmetic} `{AG : Autograd}.
Variables (a : Arguments) (optimizer : Optimizer).

(** The disclosures of the loop of [train] over batches that fit. *)
Lemma train_loop_reveals (len : nat) (epoch : Z) (l : Loader) :
  log_interval a <> 0%Z ->
  forall (i0 : nat) (w : World) r w',
    grads_ok w ->
    net_ok (params w) = true ->
    forallb (batch_ok (classes (params w))) l = true ->
    for_each (DataLoader.enumerate_from i0 l) (train_body a len optimizer epoch) w = (r, w') ->
    filter is_reveal (events_since w w')
    = train_reveals (log_interval a) (opt_lr optimizer) i0 l (params w).
Proof.
  intros EL. pose proof EL as ELb. apply Z.eqb_neq in ELb.
  induction l as [|b l IH]; intros i0 w r w' Hg Hp Hl Hrun.
  - cbn in Hrun. injection Hrun as <- <-.
    rewrite (events_since_app w w []) by (now rewrite app_nil_r). reflexivity.
  - cbn [DataLoader.enumerate_from] in Hrun.
    cbn [forallb] in Hl. apply andb_true_iff in Hl. destruct Hl as [Hb Hl].
    rewrite for_each_cons, train_body_run, ELb in Hrun.
    destruct (batch_loss_run (params w) b Hp Hb) as (output & _ & _ & _ & _ & Hloss).
    rewrite Hloss in Hrun. cbn [train_reveals]. rewrite Hloss.
    pose proof (sgd_update_shape (opt_lr optimizer) (params w) b) as Hshape.
    destruct (same_shape_ok _ _ Hshape) as [Hnet Hcls].
    destruct (Z.of_nat i0 mod log_interval a =? 0)%Z.
    + pose proof Hrun as Htr.
      apply train_loop_extends in Htr. destruct Htr as (evs & Htr).
      apply IH in Hrun;
        [|now apply world_after_ok
         |rewrite world_after_params by assumption; congruence
         |rewrite world_after_params by assumption; congruence].
      rewrite world_after_params in Hrun by assumption.
      rewrite (events_since_app _ _ _ Htr) in Hrun.
      assert (Htr' : trace w' = trace w ++ (body_events w i0
                       ++ log_events a len epoch i0 (mse_spec output (snd b))) ++ evs)
        by (rewrite Htr; cbn [world_after trace]; symmetry; apply app_assoc).
      rewrite (events_since_app _ _ _ Htr'), filter_app, Hrun. reflexivity.
    + pose proof Hrun as Htr.
      apply train_loop_extends in Htr. destruct Htr as (evs & Htr).
      apply IH in Hrun;
        [|now apply world_after_ok
         |rewrite world_after_params by assumption; congruence
         |rewrite world_after_params by assumption; congruence].
      rewrite world_after_params in Hrun by assumption.
      rewrite (events_since_app _ _ _ Htr) in Hrun.
      assert (Htr' : trace w' = trace w ++ (body_events w i0) ++ evs)
        by (rewrite Htr; cbn [world_after trace]; symmetry; apply app_assoc).
      rewrite (events_since_app _ _ _ Htr'), filter_app, Hrun. reflexivity.
Qed.

End FurtherRuns.

Lemma test_count_none `{SA : SharedArithmetic} (p : Net) (l : TestLoader) :
  forall c, test_count p l c = None <-> exists b, In b l /\ batch_correct p b = None.
Proof.
  induction l as [|b l IH]; intros c; cbn [test_count].
  - split; [discriminate | intros (b & [] & _)].
  - destruct (batch_correct p b) as [n|] eqn:Hb.
    + rewrite IH. split.
      * intros (b' & Hin & Hb'). exists b'. split; [now right | assumption].
      * intros (b' & [<-|Hin] & Hb'); [congruence|]. exists b'. auto.
    + split; [|reflexivity]. intros _. exists b. split; [now left | assumption].
Qed.

Lemma reveal_sites_test_events `{SA : SharedArithmetic} (a : Arguments) (p : Net)
      (l : TestLoader) :
  reveal_sites (test_events a p l)
  = match test_count p l (CInt 0) with
    | Some (CTensor _) => [TestCorrect]
    | _ => []
    end.
Proof.
  rewrite <- reveal_sites_filter, test_events_reveals.
  destruct (test_count p l (CInt 0)) as [[z|x]|]; reflexivity.
Qed.

(** X9.  How [test] ends.  On an empty loader it raises [AttributeError]
    ([correct] is still the integer 0 when [.get()] is called on it) and
    nothing is revealed.  It raises [RuntimeError] exactly when the forward
    pass, [argmax] or [view_as] refuses a batch, and then nothing is
    revealed either.  On a loader that is not empty and whose batches fit
    the net the count is revealed; after that [test] raises
    [ZeroDivisionError] when [test_batch_size] is zero, at the formatting of
    the accuracy, and returns otherwise. *)
Theorem test_raises_or_reports `{SA : SharedArithmetic} (a : Arguments)
        (private_test_loader : TestLoader) (w : World) :
  let run := test a private_test_loader w in
  let sites := reveal_sites (events_since w (snd run)) in
  (private_test_loader = [] -> fst run = inr AttributeError /\ sites = [])
  /\ (fst run = inr RuntimeError
      <-> exists b, In b private_test_loader /\ batch_correct (params w) b = None)
  /\ (fst run = inr RuntimeError -> sites = [])
  /\ (private_test_loader <> [] ->
      net_ok (params w) = true ->
      (1 <= classes (params w))%nat ->
      forallb test_batch_ok private_test_loader = true ->
      sites = [TestCorrect]
      /\ (test_batch_size a = 0%Z -> fst run = inr ZeroDivisionError)
      /\ (test_batch_size a <> 0%Z -> fst run = inl tt)).
Proof.
  cbv zeta. rewrite test_run. cbn [fst snd].
  rewrite (events_since_app w (world_after_test a private_test_loader w)
             (test_events a (params w) private_test_loader)) by reflexivity.
  rewrite reveal_sites_test_events. unfold test_outcome.
  split; [|split; [|split]].
  - intros ->. cbn. auto.
  - rewrite <- test_count_none with (c := CInt 0).
    destruct (test_count (params w) private_test_loader (CInt 0)) as [[z|x]|].
    + split; discriminate.
    + destruct (Z.of_nat (length private_test_loader) * test_batch_size a =? 0)%Z;
        split; discriminate.
    + split; reflexivity.
  - destruct (test_count (params w) private_test_loader (CInt 0)) as [[z|x]|]; auto.
    destruct (Z.of_nat (length private_test_loader) * test_batch_size a =? 0)%Z;
      discriminate.
  - intros Hne Hp Hc Hl.
    destruct (test_count_run (params w) private_test_loader Hp Hc Hl (CInt 0))
      as (c & Hcount & _).
    pose proof (test_count_total _ _ _ Hcount) as Ht. rewrite Hcount.
    destruct private_test_loader as [|b l]; [contradiction|]. subst c.
    split; [reflexivity|].
    destruct (Z.eqb_spec (Z.of_nat (length (b :: l)) * test_batch_size a) 0) as [E|E];
      cbn [length] in E.
    + split; [reflexivity | intros H; lia].
    + split; [intros H; rewrite H in E; lia | reflexivity].
Qed.

Lemma test_raises_or_reports_witness :
  fst (test (SA := truncating) no_log_args [] (initial_world toy_net)) = inr AttributeError
  /\ reveal_sites (events_since (initial_world toy_net)
                     (snd (test (SA := truncating) no_log_args []
                                (initial_world toy_net)))) = [].
Proof.
  apply (test_raises_or_reports (SA := truncating) no_log_args [] (initial_world toy_net)).
  reflexivity.
Defined.

Lemma reveal_sites_train_reveals `{SA : SharedArithmetic} `{AG : Autograd} (L : Z) (rate : Qc)
      (l : Loader) :
  forall (i : nat) (p : Net),
    net_ok p = true ->
    forallb (batch_ok (classes p)) l = true ->
    reveal_sites (train_reveals L rate i l p)
    = map TrainLog (filter (fun j => (Z.of_nat j mod L =? 0)%Z) (seq i (length l))).
Proof.
  induction l as [|b l IH]; intros i p Hp Hl; cbn [train_reveals length seq filter];
    [reflexivity|].
  cbn [forallb] in Hl. apply andb_true_iff in Hl. destruct Hl as [Hb Hl].
  destruct (batch_loss_run p b Hp Hb) as (output & _ & _ & _ & _ & ->).
  pose proof (sgd_update_shape rate p b) as Hshape.
  destruct (same_shape_ok _ _ Hshape) as [Hnet Hcls].
  rewrite reveal_sites_app, IH by congruence.
  destruct (Z.of_nat i mod L =? 0)%Z; reflexivity.
Qed.

(** X10.  What a call of [train] discloses.  When [log_interval] is not
    zero and the batches fit the net, the values revealed by a call of
    [train] are, in order, the losses of the batches whose index is a
    multiple of [log_interval], each computed with the parameters as they
    were before the step on that batch.  With [log_interval] 1, as in the
    notebook, that is the loss of every batch. *)
Theorem train_discloses_losses `{SA : SharedArithmetic} `{AG : Autograd} (a : Arguments)
        (private_train_loader : Loader) (optimizer : Optimizer) (epoch : Z) (w : World) :
  log_interval a <> 0%Z ->
  grads_ok w ->
  net_ok (params w) = true ->
  forallb (batch_ok (classes (params w))) private_train_loader = true ->
  let w' := snd (train a private_train_loader optimizer epoch w) in
  filter is_reveal (events_since w w')
  = train_reveals (log_interval a) (opt_lr optimizer) 0 private_train_loader (params w)
  /\ reveal_sites (events_since w w')
     = map TrainLog (filter (fun i => (Z.of_nat i mod log_interval a =? 0)%Z)
                            (seq 0 (length private_train_loader)))
  /\ (log_interval a = 1%Z ->
      reveal_sites (events_since w w') = map TrainLog (seq 0 (length private_train_loader))).
Proof.
  intros EL Hg Hp Hl. cbv zeta. rewrite train_unfold.
  destruct (for_each _ _ (train_entered epoch w)) as [r w'] eqn:Hrun.
  pose proof Hrun as Htr. apply train_loop_extends in Htr. destruct Htr as (evs & Htr).
  apply (train_loop_reveals a optimizer _ _ _ EL) in Hrun; auto.
  rewrite (events_since_app _ _ _ Htr) in Hrun.
  cbn [train_entered trace params] in Htr, Hrun. rewrite <- app_assoc in Htr.
  cbn [snd]. rewrite (events_since_app _ _ _ Htr).
  assert (Hfilter : filter is_reveal ([EvEnter (FnTrain epoch); EvSetMode true] ++ evs)
                    = train_reveals (log_interval a) (opt_lr optimizer) 0
                        private_train_loader (params w))
    by (rewrite filter_app; exact Hrun).
  assert (Hsites : reveal_sites ([EvEnter (FnTrain epoch); EvSetMode true] ++ evs)
                   = map TrainLog (filter (fun i => (Z.of_nat i mod log_interval a =? 0)%Z)
                                          (seq 0 (length private_train_loader))))
    by (rewrite <- reveal_sites_filter, Hfilter; now apply reveal_sites_train_reveals).
  split; [exact Hfilter|]. split; [exact Hsites|].
  intros E1. rewrite Hsites, E1. f_equal.
  apply forallb_filter_id. apply forallb_forall. intros i _.
  rewrite Z.mod_1_r. reflexivity.
Qed.

Lemma train_discloses_losses_witness :
  reveal_sites (events_since (initial_world small_weights_net)
                  (snd (train (SA := truncating) (AG := toy_autograd) one_epoch_args
                              small_train_loader (notebook_optimizer one_epoch_args) 1
                              (initial_world small_weights_net))))
  = map TrainLog (filter (fun i => (Z.of_nat i mod log_interval one_epoch_args =? 0)%Z)
                         (seq 0 (length small_train_loader))).
Proof.
  refine (proj1 (proj2
    (train_discloses_losses (SA := truncating) (AG := toy_autograd) one_epoch_args
       small_train_loader (notebook_optimizer one_epoch_args) 1
       (initial_world small_weights_net) _ _ _ _))).
  - discriminate.
  - exact I.
  - vm_compute. reflexivity.
  - vm_compute. reflexivity.
Defined.

(** X11.  [log_interval] zero.  On a loader whose first batch fits the net
    a call of [train] with [log_interval] zero raises [ZeroDivisionError]
    in its first iteration, at the test of the index: the first batch has
    been handed out, the step on it has been taken and stays in the
    parameters, nothing has been revealed; the epoch loop stops there.  On
    an empty loader the call returns. *)
Theorem zero_log_interval_stops_after_one_step `{SA : SharedArithmetic} `{AG : Autograd}
        (a : Arguments) (b : Batch) (l : Loader) (optimizer : Optimizer) (epoch : Z) (w : World)
        (model : Net) (private_test_loader : TestLoader) :
  log_interval a = 0%Z ->
  grads_ok w ->
  net_ok (params w) = true ->
  batch_ok (classes (params w)) b = true ->
  let run := train a (b :: l) optimizer epoch w in
  fst run = inr ZeroDivisionError
  /\ params (snd run) = sgd_update (opt_lr optimizer) (params w) b
  /\ filter is_mark (events_since w (snd run)) = EvEnter (FnTrain epoch) :: iteration_marks 0
  /\ reveal_sites (events_since w (snd run)) = []
  /\ fst (train a [] optimizer epoch w) = inl tt
  /\ ((1 <= epochs a)%Z ->
      net_ok model = true ->
      batch_ok (classes model) b = true ->
      fst (main a model (b :: l) private_test_loader) = inr ZeroDivisionError).
Proof.
  intros EL Hg Hp Hb. cbv zeta.
  assert (Hrun : forall o e w0,
             net_ok (params w0) = true ->
             batch_ok (classes (params w0)) b = true ->
             train a (b :: l) o e w0
             = (inr ZeroDivisionError,
                world_after o (train_entered e w0) b
                            (body_events (train_entered e w0) 0))).
  { intros o e w0 Hp0 Hb0. rewrite train_unfold.
    cbn [DataLoader.enumerate DataLoader.enumerate_from].
    rewrite for_each_cons, train_body_run. cbn [train_entered params].
    destruct (batch_loss_run (params w0) b Hp0 Hb0) as (output & _ & _ & _ & _ & ->).
    apply Z.eqb_eq in EL. now rewrite EL. }
  rewrite Hrun by assumption. cbn [fst snd].
  split; [reflexivity|].
  split; [apply (world_after_params optimizer (train_entered epoch w)); exact Hg|].
  rewrite (events_since_app w _ ([EvEnter (FnTrain epoch); EvSetMode true]
                                  ++ body_events (train_entered epoch w) 0))
    by (cbn [world_after train_entered trace]; now rewrite <- app_assoc).
  split; [reflexivity|]. split; [reflexivity|]. split; [reflexivity|].
  intros HE Hm Hbm. unfold main, epoch_loop, py_range.
  replace (Z.to_nat (epochs a + 1 - 1)) with (S (Z.to_nat (epochs a - 1))) by lia.
  cbn [seq map]. rewrite for_each_cons. unfold bind at 1.
  destruct (share_model_ok model) as [Hnet Hcls].
  rewrite Hrun; [reflexivity | |]; cbn [initial_world params]; congruence.
Qed.

Lemma zero_log_interval_stops_after_one_step_witness :
  fst (train (SA := truncating) (AG := toy_autograd) no_log_args small_train_loader
             (notebook_optimizer no_log_args) 1 (initial_world small_weights_net))
  = inr ZeroDivisionError.
Proof.
  refine (proj1 (zero_log_interval_stops_after_one_step (SA := truncating)
                   (AG := toy_autograd) no_log_args
                   ([image 1; image 0], [one_hot 0; one_hot 1])
                   [([image 0], [one_hot 1]); ([image 1], [one_hot 3])]
                   (notebook_optimizer no_log_args) 1 (initial_world small_weights_net)
                   small_weights_net small_test_loader _ _ _ _)).
  - reflexivity.
  - exact I.
  - vm_compute. reflexivity.
  - vm_compute. reflexivity.
Defined.



(** X13.  No epoch.  When [epochs] is zero or negative the loop of the last
    cell does not run: nothing is trained, nothing is evaluated, nothing is
    revealed. *)
Theorem no_epoch_no_effect `{SA : SharedArithmetic} `{AG : Autograd} (a : Arguments)
        (model : Net) (private_train_loader : Loader) (private_test_loader : TestLoader) :
  (epochs a <= 0)%Z ->
  main a model private_train_loader private_test_loader
  = (inl tt, initial_world (share_model model)).
Proof.
  intros HE. unfold main, epoch_loop, py_range.
  replace (Z.to_nat (epochs a + 1 - 1)) with 0%nat by lia. reflexivity.
Qed.

Lemma no_epoch_no_effect_witness :
  main (SA := truncating) (AG := toy_autograd)
       {| batch_size := 64; test_batch_size := 64; epochs := 0; lr := Q2Qc (2 # 100);
          seed := 1; log_interval := 1; precision_fractional := 3 |}
       toy_net toy_train_loader toy_test_loader
  = (inl tt, initial_world toy_net).
Proof.
  apply (no_epoch_no_effect (SA := truncating) (AG := toy_autograd)). discriminate.
Defined.

Lemma batch_hits_le `{SA : SharedArithmetic} (p : Net) (b : TestBatch) :
  (batch_hits p b <= length (snd b))%nat.
Proof.
  unfold batch_hits. destruct (forward p (fst b)); [apply hits_le | lia].
Qed.

(** X14.  The count of the evaluator is a count: whatever the parameters
    and the loader, the number [test] reveals is a natural number, at most
    the number of test examples, so that the accuracy printed lies between
    none and all of them. *)
Theorem correct_count_bounded `{SA : SharedArithmetic} (p : Net)
        (private_test_loader : TestLoader) :
  exists k : nat,
    correct_total p private_test_loader = of_nat k
    /\ (k <= n_examples private_test_loader)%nat.
Proof.
  unfold correct_total, n_examples.
  induction private_test_loader as [|b l IH].
  - exists 0%nat. split; [reflexivity | cbn; lia].
  - destruct IH as (k & Hk & Hle).
    cbn [map concat]. rewrite length_app, vsum_cons, Hk.
    pose proof (batch_hits_le p b) as Hb.
    destruct (batch_correct p b) as [n|] eqn:Hn.
    + apply batch_correct_hits in Hn. subst n.
      exists (batch_hits p b + k)%nat. split; [now rewrite of_nat_plus | lia].
    + exists k. split; [ring | lia].
Qed.



(** X17.  A batch that is refused.  When the forward pass or the loss
    refuses the first batch, a call of [train] raises [RuntimeError] in
    its first iteration: the batch has been handed out and the gradients
    zeroed, no backward pass and no step has been taken, the parameters are
    as they were and nothing has been revealed.  A batch whose elements do
    not fill rows of 28 * 28 is refused. *)
Theorem refused_batch_stops_training `{SA : SharedArithmetic} `{AG : Autograd} (a : Arguments)
        (b : Batch) (l : Loader) (optimizer : Optimizer) (epoch : Z) (w : World) :
  (batch_loss (params w) b = None ->
   let run := train a (b :: l) optimizer epoch w in
   fst run = inr RuntimeError
   /\ params (snd run) = params w
   /\ grads (snd run) = zeroed (grads w)
   /\ filter is_mark (events_since w (snd run))
      = [EvEnter (FnTrain epoch); EvYield 0; EvZeroGrad]
   /\ reveal_sites (events_since w (snd run)) = [])
  /\ ((length (concat (fst b)) mod (28 * 28) <> 0)%nat -> batch_loss (params w) b = None).
Proof.
  split.
  - intros Hb. cbv zeta. rewrite train_unfold.
    cbn [DataLoader.enumerate DataLoader.enumerate_from].
    rewrite for_each_cons, train_body_run. cbn [train_entered params]. rewrite Hb.
    cbn [fst snd world_refused train_entered params grads trace training grad_enabled].
    rewrite (events_since_app w _ ([EvEnter (FnTrain epoch); EvSetMode true]
                                    ++ [EvYield 0; EvZeroGrad; EvForward (grad_enabled w)]))
      by (cbn [world_refused train_entered trace grad_enabled]; now rewrite <- app_assoc).
    repeat split; reflexivity.
  - intros Hmod. unfold batch_loss. rewrite forward_refuses_elements; [reflexivity|].
    unfold view. destruct (Nat.eqb_spec (length (concat (fst b)) mod (28 * 28)) 0) as [E|E];
      [contradiction|].
    now rewrite orb_true_r.
Qed.

Lemma refused_batch_stops_training_witness :
  fst (train (SA := truncating) (AG := toy_autograd) args toy_train_loader
             (notebook_optimizer args) 1 (initial_world toy_net)) = inr RuntimeError.
Proof.
  refine (proj1 (proj1 (refused_batch_stops_training (SA := truncating) (AG := toy_autograd)
                          args ([[1; 1 + 1]], [[1; 0]])
                          [([[0; 1]], [[0; 1]]); ([[1; 0]], [[1; 0]])]
                          (notebook_optimizer args) 1 (initial_world toy_net)) _)).
  vm_compute. reflexivity.
Defined.

(** ** Further properties: the simulated workers *)

Lemma worker_id_injective (i j : nat) : Workers.worker_id i = Workers.worker_id j -> i = j.
Proof.
  unfold Workers.worker_id. cbn [String.append]. intros E.
  injection E as E.
  apply (f_equal DecimalString.NilEmpty.uint_of_string) in E.
  rewrite !DecimalString.NilEmpty.usu in E. injection E as E.
  apply (f_equal Nat.of_uint) in E. rewrite !DecimalNat.Unsigned.of_to in E. lia.
Qed.

Lemma NoDup_map_injective {A B} (f : A -> B) (l : list A) :
  (forall x y, f x = f y -> x = y) -> NoDup l -> NoDup (map f l).
Proof.
  intros Hf H. induction H as [|x l Hx _ IH]; cbn [map]; constructor; [|exact IH].
  intros Hin. apply in_map_iff in Hin. destruct Hin as (y & Hy & Hin).
  apply Hf in Hy. subst y. contradiction.
Qed.

(** X16.  The simulated workers.  [connect_to_workers n] makes [n] workers
    (none when [n] is negative) whose ids, worker1, worker2, ..., are
    pairwise distinct, and none of them has the id of the crypto provider. *)
Theorem workers_have_distinct_ids (n_workers : Z) :
  length (Workers.connect_to_workers n_workers) = Z.to_nat n_workers
  /\ NoDup (map Workers.id (Workers.connect_to_workers n_workers))
  /\ ~ In (Workers.id Workers.connect_to_crypto_provider)
          (map Workers.id (Workers.connect_to_workers n_workers)).
Proof.
  unfold Workers.connect_to_workers. rewrite map_map. cbn [Workers.id].
  split; [now rewrite length_map, length_seq|]. split.
  - apply NoDup_map_injective; [exact worker_id_injective | apply seq_NoDup].
  - intros Hin. apply in_map_iff in Hin. destruct Hin as (i & Hi & _).
    unfold Workers.worker_id in Hi. cbn in Hi. discriminate Hi.
Qed.

(** ** The federated-averaging notebook: the epoch loop and the rounds *)

Section FederatedLoop.

Context {Model FedLoader FedTestLoader TrainLog TestLog Err : Type}.
Variables (rwc_train : Model -> FedLoader -> Qc -> Z -> (Model * TrainLog) + Err)
          (rwc_test : Model -> FedTestLoader -> TestLog + Err)
          (fa : Federated.Arguments)
          (federated_train_loader : Z -> FedLoader) (test_loader : Z -> FedTestLoader).

(** In a run of the loop that returns, every epoch is its line, its
    training and its evaluation, in this order; the training is given the
    model the loop holds, and the evaluation the model the training
    returned, which the loop holds from then on. *)
Lemma fed_epoch_loop_returned (range : list Z) :
  forall (model m : Model) out,
    Federated.epoch_loop rwc_train rwc_test fa range model federated_train_loader test_loader
    = (inl m, out) ->
    map Federated.kind_of out
    = flat_map (fun epoch => [Federated.KEpoch epoch; Federated.KTrain; Federated.KTest]) range
    /\ Federated.threaded rwc_train rwc_test fa federated_train_loader test_loader model out
    /\ m = Federated.last_model model out.
Proof.
  induction range as [|epoch range IH]; intros model m out Hrun;
    cbn [Federated.epoch_loop] in Hrun.
  - injection Hrun as <- <-. cbn. auto.
  - destruct (rwc_train model (federated_train_loader epoch) (Federated.lr fa)
                (Federated.federate_after_n_batches fa)) as [[trained log]|e] eqn:Htrain;
      [|discriminate].
    destruct (rwc_test trained (test_loader epoch)) as [test_log|e] eqn:Htest; [|discriminate].
    destruct (Federated.epoch_loop rwc_train rwc_test fa range trained
                federated_train_loader test_loader) as [r out'] eqn:Hrest.
    injection Hrun as -> <-.
    destruct (IH _ _ _ Hrest) as (Hk & Hth & Hm).
    cbn [map flat_map app Federated.kind_of Federated.threaded Federated.last_model].
    rewrite Hk. repeat split; auto.
Qed.

(** When every call of the two functions returns, so does the loop. *)
Lemma fed_epoch_loop_returns (range : list Z) :
  (forall m l r n, exists trained log, rwc_train m l r n = inl (trained, log)) ->
  (forall m l, exists log, rwc_test m l = inl log) ->
  forall model : Model,
    exists m out,
      Federated.epoch_loop rwc_train rwc_test fa range model federated_train_loader test_loader
      = (inl m, out).
Proof.
  intros Htrain Htest. induction range as [|epoch range IH]; intros model;
    cbn [Federated.epoch_loop].
  - eauto.
  - destruct (Htrain model (federated_train_loader epoch) (Federated.lr fa)
                (Federated.federate_after_n_batches fa)) as (trained & log & ->).
    destruct (Htest trained (test_loader epoch)) as (test_log & ->).
    destruct (IH trained) as (m & out & ->). eauto.
Qed.

End FederatedLoop.

Section FederatedRounds.

Context {Model FedBatch : Type} `{LB : Federated.Library Model FedBatch}.












End FederatedRounds.

(** The run stored in the notebook: three workers with 313 batches each,
    windows of 50 batches.  Eight rounds are announced, the seventh is
    trained on the 13 batches that are left, the stop is logged in the
    eighth. *)
Example stored_run_rounds :
  let log := Federated.log_of
               (Federated.train (LB := Federated.counting_library) 0%nat
                                Federated.stored_streams (Q2Qc (1 # 100)) 50) in
  filter Federated.is_round log
  = map (fun k => Federated.EvRound (Z.of_nat k * 50) (Z.of_nat k * 50 + 50)) (seq 0 8)
  /\ skipn (length log - 2) log = [Federated.EvRound 350 400; Federated.EvStop]
  /\ filter (fun e => match e with
                      | Federated.EvLocalStep _ _ 13 => true
                      | _ => false
                      end) log
     = flat_map (fun worker => map (fun i => Federated.EvLocalStep worker i 13) (seq 0 13))
                (seq 0 3).
Proof. vm_compute. repeat split; reflexivity. Qed.




(** C7.  The epoch loops.  In the secret-sharing notebook the loop runs the
    epochs 1, 2, ..., E with E = [epochs]; in each of them [train] is
    entered, the batches of the loader are handed out from the first to the
    last, each followed by one zeroing of the gradients, one backward pass
    and one step of the optimizer, and then [test] is entered.  This is a
    run in which nothing raises: [log_interval] is not zero, the test loader
    is not empty, [test_batch_size] is not zero and the batches fit the
    net.  In the federated notebook, a run of the loop that returns has
    called, for the epochs 1, 2, ..., E in turn, [rwc.train] on the model it
    holds and then [rwc.test] on the model [rwc.train] returned; the loop
    returns when these calls do. *)
Theorem epoch_loop_alternates `{SA : SharedArithmetic} `{AG : Autograd}
        {Model FedLoader FedTestLoader TrainLog TestLog Err : Type}
        (a : Arguments) (model : Net)
        (private_train_loader : Loader) (private_test_loader : TestLoader)
        (rwc_train : Model -> FedLoader -> Qc -> Z -> (Model * TrainLog) + Err)
        (rwc_test : Model -> FedTestLoader -> TestLog + Err)
        (fa : Federated.Arguments) (fmodel : Model)
        (federated_train_loader : Z -> FedLoader) (test_loader : Z -> FedTestLoader) :
  log_interval a <> 0%Z ->
  private_test_loader <> [] ->
  test_batch_size a <> 0%Z ->
  net_ok model = true ->
  (1 <= classes model)%nat ->
  forallb (batch_ok (classes model)) private_train_loader = true ->
  forallb test_batch_ok private_test_loader = true ->
  let run := main a model private_train_loader private_test_loader in
  let fed := Federated.main rwc_train rwc_test fa fmodel federated_train_loader test_loader in
  (fst run = inl tt
   /\ filter is_mark (trace (snd run))
      = flat_map (epoch_marks (length private_train_loader))
                 (map Z.of_nat (seq 1 (Z.to_nat (epochs a)))))
  /\ (forall m, fst fed = inl m ->
      map Federated.kind_of (snd fed)
      = flat_map (fun epoch => [Federated.KEpoch epoch; Federated.KTrain; Federated.KTest])
                 (map Z.of_nat (seq 1 (Z.to_nat (Federated.epochs fa))))
      /\ Federated.threaded rwc_train rwc_test fa federated_train_loader test_loader
                            fmodel (snd fed)
      /\ m = Federated.last_model fmodel (snd fed))
  /\ ((forall m l r n, exists trained log, rwc_train m l r n = inl (trained, log)) ->
      (forall m l, exists log, rwc_test m l = inl log) ->
      exists m, fst fed = inl m).
Proof.
  intros EL Htest Htbs Hp Hc Htrl Htel. cbv zeta. split; [|split].
  - unfold main, epoch_loop.
    destruct (for_each _ _ (initial_world (share_model model))) as [r w] eqn:Hrun.
    destruct (share_model_ok model) as [Hnet Hcls].
    pose proof Hrun as Hstate.
    apply (epoch_loop_state a private_train_loader private_test_loader
             (optimizer_fix_precision (SGD (lr a)))) in Hstate; auto;
      try (cbn [initial_world params]; congruence); try exact I.
    destruct Hstate as (-> & _).
    apply epoch_loop_run in Hrun. destruct Hrun as (evs & Htr & _ & Hm).
    cbn [initial_world trace app] in Htr. cbn [fst snd]. rewrite Htr.
    split; [reflexivity|]. rewrite <- py_range_1. apply Hm. reflexivity.
  - intros m Hm. unfold Federated.main in *.
    destruct (Federated.epoch_loop rwc_train rwc_test fa _ fmodel federated_train_loader
                test_loader) as [r out] eqn:Hrun.
    cbn [fst snd] in *. subst r. rewrite <- py_range_1.
    eapply fed_epoch_loop_returned. eassumption.
  - intros Hrt Hrs. unfold Federated.main.
    destruct (fed_epoch_loop_returns rwc_train rwc_test fa federated_train_loader test_loader
                (py_range 1 (Federated.epochs fa + 1)) Hrt Hrs fmodel) as (m & out & ->).
    exists m. reflexivity.
Qed.

Lemma epoch_loop_alternates_witness :
  fst (main (SA := truncating) (AG := toy_autograd) args small_weights_net
            small_train_loader small_test_loader) = inl tt
  /\ filter is_mark (trace (snd (main (SA := truncating) (AG := toy_autograd) args
                                      small_weights_net small_train_loader
                                      small_test_loader)))
     = flat_map (epoch_marks 3) (map Z.of_nat (seq 1 10)).
Proof.
  refine (proj1 (epoch_loop_alternates (SA := truncating) (AG := toy_autograd)
                   args small_weights_net small_train_loader small_test_loader
                   (Federated.train (LB := Federated.counting_library))
                   (fun (m : nat) (_ : unit) => inl m)
                   Federated.args 0%nat (fun _ => Federated.toy_streams) (fun _ => tt)
                   _ _ _ _ _ _ _)); try discriminate; vm_compute; try reflexivity.
  lia.
Defined.
